(** * GreenChainAdvisory: the analysis correlation and persistence pipeline

    A shallow embedding of [server/index.js] (the analyze and history
    routes) and of [src/components/PaymentHandler.tsx] ([handlePayment]),
    with the properties of the pipeline stated and proved over it. *)

From Stdlib Require Import ZArith Ascii String.
From Stdlib Require Strings.Byte.
From stdpp Require Import base numbers option list gmap sorting pretty.

Set Warnings "-register-all".
Local Open Scope N_scope.

(** ** JavaScript strings

    A JavaScript string is a sequence of UTF-16 code units; [substring],
    [includes] and the regular expression of the analyze route all work on
    code units.  ASCII literals of the source are written with [lit]. *)

Abbreviation jsstring := (list N).

Definition lit (s : string) : jsstring :=
  N_of_ascii <$> list_ascii_of_string s.

Module Chr.
Definition tab : N := 9.
Definition lf : N := 10.
Definition cr : N := 13.
Definition space : N := 32.
Definition quote : N := 34.
Definition plus : N := 43.
Definition comma : N := 44.
Definition minus : N := 45.
Definition dot : N := 46.
Definition slash : N := 47.
Definition zero : N := 48.
Definition nine : N := 57.
Definition colon : N := 58.
Definition lbracket : N := 91.
Definition backslash : N := 92.
Definition rbracket : N := 93.
Definition lbrace : N := 123.
Definition rbrace : N := 125.
End Chr.

(** [s.startsWith(p)], returning the rest of [s] after the prefix. *)
Fixpoint strip_prefix (p s : jsstring) : option jsstring :=
  match p, s with
  | [], _ => Some s
  | _ :: _, [] => None
  | a :: p', b :: s' => if a =? b then strip_prefix p' s' else None
  end.

(** [s.includes(p)]. *)
Fixpoint includes (s p : jsstring) : bool :=
  match strip_prefix p s with
  | Some _ => true
  | None => match s with
            | [] => false
            | _ :: s' => includes s' p
            end
  end.

(** ** JSON values, as [JSON.parse] builds them

    A number is kept as the decimal its literal denotes, [(-1)^neg * mant *
    10^exp10]; the double that JavaScript holds is the rounding of that
    decimal, a function of these three fields.  An object is its list of own
    properties in insertion order, without duplicate keys (JavaScript
    lists array-index keys first; nothing below depends on the order). *)

Inductive json : Type :=
| JNull
| JBool (b : bool)
| JNumber (neg : bool) (mant : N) (exp10 : Z)
| JString (s : jsstring)
| JArray (items : list json)
| JObject (props : list (jsstring * json)).

(** Defining a property on an object: an existing key keeps its place and
    takes the new value (the last duplicate of a JSON text wins). *)
Fixpoint obj_set (k : jsstring) (v : json) (o : list (jsstring * json))
  : list (jsstring * json) :=
  match o with
  | [] => [(k, v)]
  | (k', v') :: o' =>
      if decide (k' = k) then (k, v) :: o' else (k', v') :: obj_set k v o'
  end.

Fixpoint obj_get (k : jsstring) (o : list (jsstring * json)) : option json :=
  match o with
  | [] => None
  | (k', v') :: o' => if decide (k' = k) then Some v' else obj_get k o'
  end.

(** [value.name]: [None] is [undefined]. *)
Definition get_prop (j : json) (name : string) : option json :=
  match j with
  | JObject o => obj_get (lit name) o
  | _ => None
  end.

(** ** [JSON.parse] *)

Definition is_ws (c : N) : bool :=
  (c =? Chr.tab) || (c =? Chr.lf) || (c =? Chr.cr) || (c =? Chr.space).

Fixpoint skip_ws (s : jsstring) : jsstring :=
  match s with
  | c :: r => if is_ws c then skip_ws r else s
  | [] => []
  end.

Definition is_digit (c : N) : bool := (Chr.zero <=? c) && (c <=? Chr.nine).

(** The longest run of decimal digits at the head of [s], read as a number
    continuing [acc], with how many digits were read. *)
Fixpoint digits (s : jsstring) (acc : N) (count : nat) : N * nat * jsstring :=
  match s with
  | c :: r =>
      if is_digit c then digits r (10 * acc + (c - Chr.zero)) (S count)
      else (acc, count, s)
  | [] => (acc, count, [])
  end.

Definition hex_digit (c : N) : option N :=
  if is_digit c then Some (c - Chr.zero)
  else if (97 <=? c) && (c <=? 102) then Some (c - 87)
  else if (65 <=? c) && (c <=? 70) then Some (c - 55)
  else None.

(** The characters of a string literal after its opening quote, up to the
    closing quote. *)
Fixpoint string_body (s : jsstring) (acc : jsstring)
  : option (jsstring * jsstring) :=
  match s with
  | [] => None
  | c :: r =>
      if c =? Chr.quote then Some (reverse acc, r)
      else if c =? Chr.backslash then
        match r with
        | [] => None
        | e :: r' =>
            if e =? Chr.quote then string_body r' (Chr.quote :: acc)
            else if e =? Chr.backslash then string_body r' (Chr.backslash :: acc)
            else if e =? Chr.slash then string_body r' (Chr.slash :: acc)
            else if e =? 98 then string_body r' (8 :: acc)
            else if e =? 102 then string_body r' (12 :: acc)
            else if e =? 110 then string_body r' (Chr.lf :: acc)
            else if e =? 114 then string_body r' (Chr.cr :: acc)
            else if e =? 116 then string_body r' (Chr.tab :: acc)
            else if e =? 117 then
              match r' with
              | h1 :: h2 :: h3 :: h4 :: r'' =>
                  match hex_digit h1, hex_digit h2, hex_digit h3, hex_digit h4 with
                  | Some a, Some b, Some c', Some d =>
                      string_body r'' (((a * 16 + b) * 16 + c') * 16 + d :: acc)
                  | _, _, _, _ => None
                  end
              | _ => None
              end
            else None
        end
      else if c <? Chr.space then None
      else string_body r (c :: acc)
  end.

(** A number literal: an optional minus sign; a zero, or a non-zero digit
    and more digits; optionally a dot and one digit or more; optionally an
    [e] or [E], a sign and one digit or more. *)
Definition number_int (s : jsstring) : option (N * jsstring) :=
  match s with
  | c :: r =>
      if c =? Chr.zero then Some (0, r)
      else if is_digit c then
        let '(n, _, r') := digits s 0 0%nat in Some (n, r')
      else None
  | [] => None
  end.

Definition number_frac (m : N) (s : jsstring) : option (N * nat * jsstring) :=
  match s with
  | c :: r =>
      if c =? Chr.dot then
        let '(n, k, r') := digits r m 0%nat in
        match k with
        | O => None
        | S _ => Some (n, k, r')
        end
      else Some (m, 0%nat, s)
  | [] => Some (m, 0%nat, [])
  end.

Definition number_exp (s : jsstring) : option (Z * jsstring) :=
  match s with
  | c :: r =>
      if (c =? 101) || (c =? 69) then
        let '(sgn, r1) :=
          match r with
          | d :: r0 =>
              if d =? Chr.plus then (false, r0)
              else if d =? Chr.minus then (true, r0)
              else (false, r)
          | [] => (false, [])
          end in
        let '(n, k, r2) := digits r1 0 0%nat in
        match k with
        | O => None
        | S _ => Some (if sgn then (- Z.of_N n)%Z else Z.of_N n, r2)
        end
      else Some (0%Z, s)
  | [] => Some (0%Z, [])
  end.

Definition number (s : jsstring) : option (json * jsstring) :=
  let '(neg, s0) :=
    match s with
    | c :: r => if c =? Chr.minus then (true, r) else (false, s)
    | [] => (false, [])
    end in
  '(i, s1) ← number_int s0;
  '(m, k, s2) ← number_frac i s1;
  '(e, s3) ← number_exp s2;
  Some (JNumber neg m (e - Z.of_nat k), s3).

(** Values, array elements and object members.  [fuel] bounds the nesting
    of the calls; a call consumes a character at least every second level, so
    twice the length of the text is enough ([parse_value_fuel]). *)
Fixpoint parse_value (fuel : nat) (s : jsstring) {struct fuel}
  : option (json * jsstring) :=
  match fuel with
  | O => None
  | S fuel' =>
      match skip_ws s with
      | [] => None
      | c :: r =>
          if c =? Chr.lbrace then
            match skip_ws r with
            | c' :: r' =>
                if c' =? Chr.rbrace then Some (JObject [], r')
                else parse_members fuel' r []
            | [] => None
            end
          else if c =? Chr.lbracket then
            match skip_ws r with
            | c' :: r' =>
                if c' =? Chr.rbracket then Some (JArray [], r')
                else parse_elements fuel' r []
            | [] => None
            end
          else if c =? Chr.quote then
            '(str, r') ← string_body r [];
            Some (JString str, r')
          else
            match strip_prefix (lit "null") (c :: r) with
            | Some r' => Some (JNull, r')
            | None =>
            match strip_prefix (lit "true") (c :: r) with
            | Some r' => Some (JBool true, r')
            | None =>
            match strip_prefix (lit "false") (c :: r) with
            | Some r' => Some (JBool false, r')
            | None => number (c :: r)
            end end end
      end
  end
with parse_members (fuel : nat) (s : jsstring) (acc : list (jsstring * json))
  {struct fuel} : option (json * jsstring) :=
  match fuel with
  | O => None
  | S fuel' =>
      match skip_ws s with
      | c :: r =>
          if c =? Chr.quote then
            '(k, r1) ← string_body r [];
            match skip_ws r1 with
            | c1 :: r2 =>
                if c1 =? Chr.colon then
                  '(v, r3) ← parse_value fuel' r2;
                  match skip_ws r3 with
                  | c3 :: r4 =>
                      if c3 =? Chr.comma then
                        parse_members fuel' r4 (obj_set k v acc)
                      else if c3 =? Chr.rbrace then
                        Some (JObject (obj_set k v acc), r4)
                      else None
                  | [] => None
                  end
                else None
            | [] => None
            end
          else None
      | [] => None
      end
  end
with parse_elements (fuel : nat) (s : jsstring) (acc : list json)
  {struct fuel} : option (json * jsstring) :=
  match fuel with
  | O => None
  | S fuel' =>
      '(v, r1) ← parse_value fuel' s;
      match skip_ws r1 with
      | c :: r2 =>
          if c =? Chr.comma then parse_elements fuel' r2 (acc ++ [v])
          else if c =? Chr.rbracket then Some (JArray (acc ++ [v]), r2)
          else None
      | [] => None
      end
  end.

(** [JSON.parse(s)]: one value, then only white space; [None] is the
    [SyntaxError] it throws. *)
Definition JSON_parse (s : jsstring) : option json :=
  '(v, r) ← parse_value (S (2 * length s)) s;
  match skip_ws r with
  | [] => Some v
  | _ :: _ => None
  end.

(** Test data: a JSON text written with ['] where the text has a double
    quote. *)
Definition jsonlit (s : string) : jsstring :=
  (λ c, if c =? 39 then Chr.quote else c) <$> lit s.

(** ** The analyze route: extracting the result from the model's text *)

(** [text.match(/\{[\s\S]*\}/)].  The engine tries each start position from
    the left; at a position it needs a [{], then [[\s\S]*] takes as many code
    units as it can (any code unit matches) while a [}] still follows. *)
Fixpoint star_rbrace (s : jsstring) : option jsstring :=
  match s with
  | [] => None
  | c :: r =>
      match star_rbrace r with
      | Some m => Some (c :: m)
      | None => if c =? Chr.rbrace then Some [c] else None
      end
  end.

Definition match_here (s : jsstring) : option jsstring :=
  match s with
  | c :: r => if c =? Chr.lbrace then (c ::.) <$> star_rbrace r else None
  | [] => None
  end.

Fixpoint jsonMatch (text : jsstring) : option jsstring :=
  match match_here text with
  | Some m => Some m
  | None => match text with
            | [] => None
            | _ :: r => jsonMatch r
            end
  end.

Definition fallback_advice : jsstring :=
  lit "Please consult with a local agricultural expert for detailed treatment recommendations.".

(** The object of the [catch (parseError)] branch. *)
Definition fallback (text : jsstring) : json :=
  JObject
    [ (lit "diagnosis", JString (take 200 text ++ lit "..."));
      (lit "advice", JString fallback_advice);
      (lit "severity", JString (lit "medium"));
      (lit "confidence", JNumber false 75 (-2)) ].

(** The inner [try]: the match is handed to [JSON.parse]; no match throws,
    and so does a match that is not JSON; both land in the fallback. *)
Definition structured (text : jsstring) : option json :=
  m ← jsonMatch text; JSON_parse m.

Definition analysisResult (text : jsstring) : json :=
  match structured text with
  | Some v => v
  | None => fallback text
  end.

(** ** The server: the upload directory and the [analyses] table *)

(** A row of [analyses], column by column.  A result column holds the
    parameter the driver was given ([None] is SQL [NULL]); what the column
    type then makes of it ([DECIMAL(3,2)] rounds) is not modelled, and the
    statements below read a result column only for being [NULL] or not.
    Times are instants on the database clock. *)
Record row : Type := Row {
  id : Z;
  analysis_id : jsstring;
  farmer_address : jsstring;
  image_hash : jsstring;
  diagnosis : option json;
  advice : option json;
  confidence : option json;
  severity : option json;
  created_at : option Z;
  completed_at : option Z
}.

Record server : Type := Server {
  files : gmap jsstring (list N);
  analyses : list row
}.

(** What the services outside the process do during one request: the reply
    of the model ([None]: the call throws), whether the database carries out
    the statement ([false]: [pool.query] throws, the server being down or a
    value not fitting its column, and the table is as it was), and the
    database clock. *)
Record env : Type := Env {
  model_reply : option jsstring;
  query_ok : bool;
  NOW : Z
}.

Inductive body : Type :=
| Json (j : json)
| Rows (rs : list row).

Record response : Type := Response { status : Z; payload : body }.

(** [{ error: msg }]. *)
Definition error_body (msg : string) : body :=
  Json (JObject [(lit "error", JString (lit msg))]).

(** Handlers run in a monad of state and exceptions: a thrown exception
    keeps the effects made before it. *)
Definition ST (S E A : Type) : Type := S → (E + A) * S.

#[local] Instance ST_ret {S E} : MRet (ST S E) := λ A a σ, (inr a, σ).
#[local] Instance ST_bind {S E} : MBind (ST S E) := λ A B k m σ,
  match m σ with
  | (inr a, σ') => k a σ'
  | (inl e, σ') => (inl e, σ')
  end.

Definition throw {S E A} (e : E) : ST S E A := λ σ, (inl e, σ).

Definition try_catch {S E A} (m : ST S E A) (h : E → ST S E A) : ST S E A := λ σ,
  match m σ with
  | (inr a, σ') => (inr a, σ')
  | (inl e, σ') => h e σ'
  end.

Definition try_finally {S E A} (m : ST S E A) (f : ST S E ()) : ST S E A := λ σ,
  let '(r, σ') := m σ in
  match f σ' with
  | (inr _, σ'') => (r, σ'')
  | (inl e, σ'') => (inl e, σ'')
  end.

Inductive exn : Type :=
| ENOENT
| InferenceError
| QueryError.

Abbreviation M := (ST server exn).

Definition readFileSync (p : jsstring) : M (list N) := λ σ,
  match files σ !! p with
  | Some d => (inr d, σ)
  | None => (inl ENOENT, σ)
  end.

Definition unlinkSync (p : jsstring) : M () := λ σ,
  match files σ !! p with
  | Some _ => (inr (), Server (delete p (files σ)) (analyses σ))
  | None => (inl ENOENT, σ)
  end.

(** [model.generateContent([prompt, imagePart])] and [response.text()]. *)
Definition generateContent (e : env) : M jsstring := λ σ,
  match model_reply e with
  | Some text => (inr text, σ)
  | None => (inl InferenceError, σ)
  end.

(** A query parameter: [undefined] and [null] are sent as [NULL]. *)
Definition param (v : option json) : option json :=
  match v with
  | Some JNull | None => None
  | Some j => Some j
  end.

(** [UPDATE analyses SET diagnosis = $1, advice = $2, confidence = $3,
    severity = $4, completed_at = NOW() WHERE analysis_id = $5]. *)
Definition update_row (now : Z) (p1 p2 p3 p4 : option json) (p5 : jsstring)
  (r : row) : row :=
  if decide (analysis_id r = p5) then
    Row (id r) (analysis_id r) (farmer_address r) (image_hash r)
        p1 p2 p3 p4 (created_at r) (Some now)
  else r.

Definition query_update (e : env) (p1 p2 p3 p4 : option json) (p5 : jsstring)
  : M () := λ σ,
  if query_ok e then
    (inr (), Server (files σ) (update_row (NOW e) p1 p2 p3 p4 p5 <$> analyses σ))
  else (inl QueryError, σ).

(** [req.file] as multer leaves it, and [req.body.analysisId]. *)
Record upload : Type := Upload { path : jsstring; mimetype : jsstring }.

Record analyze_req : Type := AnalyzeReq {
  file : option upload;
  analysisId : option jsstring
}.

(** [app.post('/api/analyze', ...)], after multer has stored the upload.
    [!analysisId] holds of a missing field and of the empty string. *)
Definition analyze (e : env) (req : analyze_req) : M response :=
  try_catch
    (match file req with
     | None => mret (Response 400 (error_body "No image file provided"))
     | Some imageFile =>
         match analysisId req with
         | None | Some [] =>
             mret (Response 400 (error_body "Analysis ID is required"))
         | Some analysisId =>
             imageData ← readFileSync (path imageFile);
             text ← generateContent e;
             let result := analysisResult text in
             _ ← query_update e
                   (param (get_prop result "diagnosis"))
                   (param (get_prop result "advice"))
                   (param (get_prop result "confidence"))
                   (param (get_prop result "severity"))
                   analysisId;
             _ ← unlinkSync (path imageFile);
             mret (Response 200 (Json result))
         end
     end)
    (λ error,
       _ ← match file req with
           | Some f => try_catch (unlinkSync (path f)) (λ cleanupError, mret ())
           | None => mret ()
           end;
       mret (Response 500 (error_body "Analysis failed. Please try again later."))).

(** The order of [ORDER BY created_at DESC]: PostgreSQL sorts [NULL] as
    larger than every value, so first when descending. *)
Definition ts_le (a b : option Z) : Prop :=
  match a, b with
  | _, None => True
  | None, Some _ => False
  | Some x, Some y => (x ≤ y)%Z
  end.

Definition created_desc (r1 r2 : row) : Prop :=
  ts_le (created_at r2) (created_at r1).

#[local] Instance ts_le_dec a b : Decision (ts_le a b).
Proof. destruct a, b; simpl; apply _. Defined.

#[local] Instance created_desc_dec r1 r2 : Decision (created_desc r1 r2).
Proof. unfold created_desc; apply _. Defined.

(** [SELECT * FROM analyses WHERE farmer_address = $1 ORDER BY created_at
    DESC]. *)
Definition select_by_farmer (farmerAddress : jsstring) (t : list row) : list row :=
  merge_sort created_desc (filter (λ r, farmer_address r = farmerAddress) t).

(** [app.get('/api/analyses/:farmerAddress', ...)]. *)
Definition history (e : env) (farmerAddress : jsstring) : M response :=
  try_catch
    (rows ← (λ σ, if query_ok e
                  then (inr (select_by_farmer farmerAddress (analyses σ)), σ)
                  else (inl QueryError, σ)) : M (list row);
     mret (Response 200 (Rows rows)))
    (λ error, mret (Response 500 (error_body "Failed to fetch analysis history"))).

(** ** The payment component ([PaymentHandler.tsx]) *)

(** The component's state, and the identifiers handed to
    [onPaymentSuccess], oldest first. *)
Record client : Type := Client {
  isProcessing : bool;
  error : option jsstring;
  transactionHash : option jsstring;
  delivered : list jsstring
}.

(** A value web3 decodes from an event: a string or an integer. *)
Inductive retval : Type :=
| RString (s : jsstring)
| RInt (n : N).

Record event : Type := Event {
  returnValues : option (list (jsstring * retval))
}.

Record receipt : Type := Receipt {
  tx_transactionHash : jsstring;
  tx_events : option (list (jsstring * event))
}.

(** A thrown value; [message] is [None] when it has no such property, or
    when the value is [undefined] or [null]: [handlePayment] reads
    [err.message.includes], which throws alike in both cases. *)
Record js_error : Type := JsError { message : option jsstring }.

Definition Error (msg : string) : js_error := JsError (Some (lit msg)).

(** The props of the component and what the wallet and the ledger answer
    during one click. *)
Record pay_env : Type := PayEnv {
  web3 : bool;
  account : jsstring;
  selectedImage : bool;
  isAddress : bool;
  generateImageHash : js_error + jsstring;
  analysisPrice : js_error + N;
  send : js_error + receipt
}.

Fixpoint assoc {A} (k : jsstring) (l : list (jsstring * A)) : option A :=
  match l with
  | [] => None
  | (k', a) :: l' => if decide (k' = k) then Some a else assoc k l'
  end.

(** [String(v)]. *)
Definition String_ (v : option retval) : jsstring :=
  match v with
  | None => lit "undefined"
  | Some (RString s) => s
  | Some (RInt n) => lit (pretty n)
  end.

Abbreviation C := (ST client js_error).

Definition await {A} (r : js_error + A) : C A := λ σ, (r, σ).

Definition setIsProcessing (b : bool) : C () := λ σ,
  (inr (), Client b (error σ) (transactionHash σ) (delivered σ)).
Definition setError (m : option jsstring) : C () := λ σ,
  (inr (), Client (isProcessing σ) m (transactionHash σ) (delivered σ)).
Definition setTransactionHash (h : option jsstring) : C () := λ σ,
  (inr (), Client (isProcessing σ) (error σ) h (delivered σ)).
Definition onPaymentSuccess (analysisId : jsstring) : C () := λ σ,
  (inr (), Client (isProcessing σ) (error σ) (transactionHash σ)
                  (delivered σ ++ [analysisId])).

(** The message chosen in the [catch] of [handlePayment]. *)
Definition errorMessage (m : jsstring) : jsstring :=
  if includes m (lit "insufficient funds") then
    lit "Insufficient ETH balance for transaction"
  else if includes m (lit "User denied") then
    lit "Transaction was cancelled by user"
  else if includes m (lit "Invalid Ethereum address") then
    lit "Please connect a valid Ethereum wallet"
  else match m with
       | _ :: _ => m
       | [] => lit "Payment failed. Please try again."
       end.

Definition handlePayment (p : pay_env) : C () :=
  _ ← setIsProcessing true;
  _ ← setError None;
  _ ← setTransactionHash None;
  try_finally
    (try_catch
       (_ ← (if negb (web3 p) || bool_decide (account p = []) || negb (selectedImage p)
             then throw (Error "Missing required parameters") else mret ());
        _ ← (if negb (isAddress p)
             then throw (Error "Invalid Ethereum address") else mret ());
        imageHash ← await (generateImageHash p);
        price ← await (analysisPrice p);
        transaction ← await (send p);
        _ ← setTransactionHash (Some (tx_transactionHash transaction));
        let paymentEvent := events ← tx_events transaction;
                            assoc (lit "PaymentReceived") events in
        match paymentEvent ≫= returnValues with
        | Some values =>
            onPaymentSuccess (String_ (assoc (lit "analysisId") values))
        | None =>
            throw (Error "Could not retrieve analysis ID from transaction")
        end)
       (λ err,
          match message err with
          | Some m => setError (Some (errorMessage m))
          | None => throw (JsError (Some (lit "Cannot read properties of undefined")))
          end))
    (setIsProcessing false).

(** ** The system: one table, one upload directory, one component *)

Record world : Type := World { backend : server; frontend : client }.

Inductive op : Type :=
| Pay (p : pay_env)
| PostAnalyze (e : env) (image : option (upload * list N)) (analysisId : option jsstring)
| GetAnalyses (e : env) (farmerAddress : jsstring)
| GetHealth.

(** The multer configuration: [fileFilter] accepts a part whose MIME type
    starts with [image/], and [limits.fileSize] is [10 * 1024 * 1024]
    bytes.  A part that is refused never reaches the handler. *)
Definition fileFilter (u : upload) : bool :=
  bool_decide (is_Some (strip_prefix (lit "image/") (mimetype u))).

Definition fileSize : N := 10 * 1024 * 1024.

Definition accepted (image : option (upload * list N)) : bool :=
  match image with
  | Some (u, data) => fileFilter u && (N.of_nat (length data) <=? fileSize)
  | None => true
  end.

(** multer's disk storage writes the image under its path before the
    handler runs. *)
Definition store_upload (image : option (upload * list N)) (σ : server) : server :=
  match image with
  | Some (u, data) => Server (<[path u := data]> (files σ)) (analyses σ)
  | None => σ
  end.

(** The [disabled] attribute of the pay button. *)
Definition disabled (p : pay_env) (σ : client) : bool :=
  isProcessing σ || negb (selectedImage p) || bool_decide (account p = [])
  || negb (web3 p).

(** [onClick={handlePayment}]: a disabled button does not call it. *)
Definition click (p : pay_env) (σ : client) : client :=
  if disabled p σ then σ else (handlePayment p σ).2.

Definition step (w : world) (o : op) : world :=
  match o with
  | Pay p => World (backend w) (click p (frontend w))
  | PostAnalyze e image a =>
      if accepted image then
        World (analyze e (AnalyzeReq (fst <$> image) a)
                 (store_upload image (backend w))).2
              (frontend w)
      else w
  | GetAnalyses e farmerAddress =>
      World (history e farmerAddress (backend w)).2 (frontend w)
  | GetHealth => w
  end.

Definition run (ops : list op) (w : world) : world := foldl step w ops.

Definition idle : client := Client false None None [].

(** ** The result schema of the design document

    Stated from the document, to compare the route with it: [diagnosis] and
    [advice] are strings, [severity] is one of [low], [medium], [high],
    [confidence] is a number of the interval from 0 to 1. *)

Definition is_string (v : option json) : bool :=
  match v with
  | Some (JString _) => true
  | _ => false
  end.

Definition is_severity (v : option json) : bool :=
  match v with
  | Some (JString s) =>
      bool_decide (s = lit "low") || bool_decide (s = lit "medium")
      || bool_decide (s = lit "high")
  | _ => false
  end.

Definition is_confidence (v : option json) : bool :=
  match v with
  | Some (JNumber neg mant e) =>
      (mant =? 0)
      || (negb neg
          && (if (0 <=? e)%Z then mant * 10 ^ Z.to_N e <=? 1
              else mant <=? 10 ^ Z.to_N (- e)))
  | _ => false
  end.

Definition schema_ok (j : json) : bool :=
  is_string (get_prop j "diagnosis") && is_string (get_prop j "advice")
  && is_severity (get_prop j "severity")
  && is_confidence (get_prop j "confidence").

(** The object of the design document's round-trip property. *)
Definition leaf_rust_text : jsstring :=
  jsonlit "{'diagnosis':'leaf rust','advice':'apply fungicide','severity':'high','confidence':0.9}".

Definition leaf_rust : json :=
  JObject
    [ (lit "diagnosis", JString (lit "leaf rust"));
      (lit "advice", JString (lit "apply fungicide"));
      (lit "severity", JString (lit "high"));
      (lit "confidence", JNumber false 9 (-1)) ].

(** A reply whose object parses and violates the schema twice. *)
Definition critical_text : jsstring :=
  jsonlit "Analysis: {'diagnosis':'blight','advice':'remove the plant','severity':'critical','confidence':1.5} (sure)".

Definition critical : json :=
  JObject
    [ (lit "diagnosis", JString (lit "blight"));
      (lit "advice", JString (lit "remove the plant"));
      (lit "severity", JString (lit "critical"));
      (lit "confidence", JNumber false 15 (-1)) ].

(** A reply whose object parses and has no confidence. *)
Definition unsure_text : jsstring :=
  jsonlit "{'diagnosis':'leaf rust','advice':'apply fungicide','severity':'high'}".

(** A reply of the model that is prose only, longer than 200 code units. *)
Definition yellowing : jsstring :=
  lit "I see some yellowing on the leaves which may indicate a nitrogen deficiency or the early stage of a fungal infection; the spots near the leaf margins are irregular and the veins stay green, so I would check the soil first and water less often.".

(** ** States of a record and of a request, for the statements below *)

Definition pending (r : row) : Prop := completed_at r = None.

(** The invariant of the design document: a record is pending, or it is
    completed with its four result fields set. *)
Definition record_ok (r : row) : Prop :=
  pending r
  ∨ (is_Some (completed_at r) ∧ is_Some (diagnosis r) ∧ is_Some (advice r)
     ∧ is_Some (severity r) ∧ is_Some (confidence r)).

#[local] Instance pending_dec r : Decision (pending r).
Proof. unfold pending; apply _. Defined.

#[local] Instance record_ok_dec r : Decision (record_ok r).
Proof. unfold record_ok; apply _. Defined.

(** No pending record has the identifier. *)
Definition no_pending (a : jsstring) (t : list row) : Prop :=
  a ∉ analysis_id <$> filter pending t.

#[local] Instance no_pending_dec a t : Decision (no_pending a t).
Proof. unfold no_pending; apply _. Defined.

(** A result whose four properties would all be stored as values. *)
Definition complete_result (j : json) : Prop :=
  is_Some (param (get_prop j "diagnosis")) ∧ is_Some (param (get_prop j "advice"))
  ∧ is_Some (param (get_prop j "severity")) ∧ is_Some (param (get_prop j "confidence")).

#[local] Instance complete_result_dec j : Decision (complete_result j).
Proof. unfold complete_result; apply _. Defined.

(** A request during which the model, if it replies, replies with a text
    that yields a complete result. *)
Definition reply_complete (o : op) : Prop :=
  match o with
  | PostAnalyze e _ _ =>
      match model_reply e with
      | Some text => complete_result (analysisResult text)
      | None => True
      end
  | _ => True
  end.

#[local] Instance reply_complete_dec o : Decision (reply_complete o).
Proof. destruct o as [|e ? ?| |]; simpl; try apply _. destruct (model_reply e); apply _. Defined.

(** A route that answered with status 200. *)
Definition succeeded (r : exn + response) : Prop :=
  match r with
  | inr resp => status resp = 200%Z
  | inl _ => False
  end.

(** Sample data: an upload, a pending record of identifier 42, and a click
    whose transaction emits [PaymentReceived] with that identifier. *)
Definition leaf_png : upload := Upload (lit "uploads/3f9a") (lit "image/png").

Definition pending42 : row :=
  Row 1 (lit "42") (lit "0xabc") (lit "0x9f86d0") None None None None (Some 100%Z) None.

Definition pay_with (r : receipt) : pay_env :=
  PayEnv true (lit "0xabc") true true (inr (lit "0x9f86d0")) (inr 1000000000000000) (inr r).

Definition paid42 : pay_env :=
  pay_with (Receipt (lit "0x7e57")
              (Some [(lit "PaymentReceived", Event (Some [(lit "analysisId", RInt 42)]))])).

Definition history_sample : list row :=
  [ Row 1 (lit "41") (lit "0xabc") (lit "0x11") None None None None (Some 100%Z) None;
    Row 2 (lit "42") (lit "0xdef") (lit "0x22") None None None None (Some 150%Z) None;
    Row 3 (lit "43") (lit "0xabc") (lit "0x33")
      (Some (JString (lit "leaf rust"))) (Some (JString (lit "apply fungicide")))
      (Some (JNumber false 9 (-1))) (Some (JString (lit "high")))
      (Some 200%Z) (Some 260%Z) ].

(** ** The rest of the payment component: the image hash and the labels *)

(** The hexadecimal digit of a value below 16, in lower case. *)
Definition hex_char (d : N) : N := if d <? 10 then Chr.zero + d else 87 + d.

(** [b.toString(16)] of an element of a [Uint8Array]. *)
Definition toString16 (b : Byte.byte) : jsstring :=
  let n := Byte.to_N b in
  if n <? 16 then [hex_char n] else [hex_char (n / 16); hex_char (n mod 16)].

(** [s.padStart(n, c)] with a pad of one code unit. *)
Definition padStart (n : nat) (c : N) (s : jsstring) : jsstring :=
  replicate (n - length s) c ++ s.

(** [generateImageHash], from the digest on: ['0x' + hashArray.map(b =>
    b.toString(16).padStart(2, '0')).join('')]. *)
Definition hashString (hashArray : list Byte.byte) : jsstring :=
  lit "0x" ++ concat ((λ b, padStart 2 Chr.zero (toString16 b)) <$> hashArray).

Definition is_lower_hex (c : N) : bool :=
  is_digit c || ((97 <=? c) && (c <=? 102)).

(** Reading the string back, two digits a byte. *)
Fixpoint unhex (s : jsstring) : option (list Byte.byte) :=
  match s with
  | [] => Some []
  | [_] => None
  | h :: l :: r =>
      a ← hex_digit h; b ← hex_digit l;
      x ← Byte.of_N (a * 16 + b);
      (x ::.) <$> unhex r
  end.

Definition hashBytes (s : jsstring) : option (list Byte.byte) :=
  strip_prefix (lit "0x") s ≫= unhex.

(** An index argument of [substring] and [slice], clamped to the string:
    [substring] takes a negative index as 0, [slice] counts it from the
    end. *)
Definition clamp (len : nat) (i : Z) : nat := Z.to_nat (0 `max` (i `min` Z.of_nat len)).

Definition substring (s : jsstring) (start : Z) (stop : option Z) : jsstring :=
  let a := clamp (length s) start in
  let b := clamp (length s) (default (Z.of_nat (length s)) stop) in
  take (a `max` b - a `min` b) (drop (a `min` b) s).

Definition slice_index (len : nat) (i : Z) : nat :=
  if (i <? 0)%Z then Z.to_nat (0 `max` (Z.of_nat len + i)) else clamp len i.

Definition slice (s : jsstring) (start : Z) (stop : option Z) : jsstring :=
  let a := slice_index (length s) start in
  let b := slice_index (length s) (default (Z.of_nat (length s)) stop) in
  take (b - a) (drop a s).

(** [shortenAddress] of [WalletConnection.tsx]. *)
Definition shortenAddress (address : jsstring) : jsstring :=
  slice address 0 (Some 6%Z) ++ lit "..." ++ slice address (-4) None.

(** The account line of the payment component's debug block. *)
Definition account_label (account : jsstring) : jsstring :=
  match account with
  | [] => lit "Not connected"
  | _ :: _ =>
      substring account 0 (Some 6%Z) ++ lit "..."
      ++ substring account (Z.of_nat (length account) - 4) None
  end.

(** ** The wallet component ([WalletConnection.tsx]) *)

(** The component's state, and the accounts handed to
    [onWalletConnected], oldest first. *)
Record wallet : Type := Wallet {
  isConnecting : bool;
  wallet_error : option jsstring;
  web3Instance : bool;
  connected : list jsstring
}.

(** What [detectEthereumProvider()] resolves to ([false]: [null]) and what
    [requestAccounts()] answers.  A rejection carries the thrown value,
    [None] when that value is [undefined] or [null]. *)
Record wallet_env : Type := WalletEnv {
  detectEthereumProvider : option js_error + bool;
  requestAccounts : option js_error + list jsstring
}.

Abbreviation W := (ST wallet (option js_error)).

Definition setIsConnecting (b : bool) : W () := λ σ,
  (inr (), Wallet b (wallet_error σ) (web3Instance σ) (connected σ)).
Definition setWalletError (m : option jsstring) : W () := λ σ,
  (inr (), Wallet (isConnecting σ) m (web3Instance σ) (connected σ)).
Definition setWeb3 (b : bool) : W () := λ σ,
  (inr (), Wallet (isConnecting σ) (wallet_error σ) b (connected σ)).
Definition onWalletConnected (account : jsstring) : W () := λ σ,
  (inr (), Wallet (isConnecting σ) (wallet_error σ) (web3Instance σ)
                  (connected σ ++ [account])).

(** [a || b] on an optional string: [undefined] and the empty string are
    falsy. *)
Definition or_else (m : option jsstring) (d : jsstring) : jsstring :=
  match m with
  | Some (c :: s) => c :: s
  | Some [] | None => d
  end.

(** In the [catch], [err.message] of [undefined] or [null] is itself a
    [TypeError]. *)
Definition connectWallet (w : wallet_env) : W () :=
  _ ← setIsConnecting true;
  _ ← setWalletError None;
  try_finally
    (try_catch
       (provider ← (λ σ, (detectEthereumProvider w, σ)) : W bool;
        _ ← (if negb provider
             then throw (Some (Error "Please install MetaMask to use this application"))
             else mret ());
        _ ← setWeb3 true;
        accounts ← (λ σ, (requestAccounts w, σ)) : W (list jsstring);
        match accounts with
        | [] => throw (Some (Error "No accounts found. Please unlock MetaMask"))
        | account :: _ => onWalletConnected account
        end)
       (λ err,
          match err with
          | Some e =>
              setWalletError (Some (or_else (message e) (lit "Failed to connect wallet")))
          | None => throw (Some (Error "Cannot read properties of undefined"))
          end))
    (setIsConnecting false).

Definition disconnected : wallet := Wallet false None false [].

(** ** The result component ([AIAnalysis.tsx]) *)

Record viewer : Type := Viewer {
  isAnalyzing : bool;
  result : option body;
  viewer_error : option json
}.

(** How the POST ends for axios: an answer with a JSON body, the page of
    Express's own error handler (multer refused the part), or no answer at
    all. *)
Inductive http : Type :=
| Answered (r : response)
| ErrorPage
| NoResponse.

(** A value in a condition. *)
Definition truthy (j : json) : bool :=
  match j with
  | JNull => false
  | JBool b => b
  | JNumber _ mant _ => negb (mant =? 0)
  | JString s => negb (bool_decide (s = []))
  | JArray _ | JObject _ => true
  end.

(** [err.response?.data?.error || 'Analysis failed. Please try again.'];
    only an answer with a JSON object can have the property. *)
Definition shown_error (h : http) : json :=
  let fromServer :=
    match h with
    | Answered r =>
        match payload r with
        | Json j => get_prop j "error"
        | Rows _ => None
        end
    | ErrorPage | NoResponse => None
    end in
  match fromServer with
  | Some j => if truthy j then j else JString (lit "Analysis failed. Please try again.")
  | None => JString (lit "Analysis failed. Please try again.")
  end.

(** axios resolves on a status from 200 to 299 and rejects otherwise. *)
Definition resolves (h : http) : option body :=
  match h with
  | Answered r =>
      if (200 <=? status r)%Z && (status r <? 300)%Z then Some (payload r) else None
  | ErrorPage | NoResponse => None
  end.

(** [analyzeImage]; [post] is what the request comes to, and is only looked
    at when the request is sent. *)
Definition analyzeImage (selectedImage : bool) (analysisId : option jsstring)
  (post : http) (σ : viewer) : viewer :=
  match selectedImage, analysisId with
  | true, Some (_ :: _) =>
      match resolves post with
      | Some data => Viewer false (Some data) None
      | None => Viewer false (result σ) (Some (shown_error post))
      end
  | _, _ => σ
  end.

(** The POST of the component against the server: the image is always
    attached; multer refuses it or stores it and the route answers. *)
Definition post_analyze (e : env) (image : upload * list N) (analysisId : jsstring)
  (σ : server) : http * server :=
  if accepted (Some image) then
    match analyze e (AnalyzeReq (Some image.1) (Some analysisId))
            (store_upload (Some image) σ) with
    | (inr r, σ') => (Answered r, σ')
    | (inl _, σ') => (NoResponse, σ')
    end
  else (ErrorPage, σ).

(** The columns of a record that only an insertion sets. *)
Definition identity (r : row) : Z * jsstring * jsstring * jsstring * option Z :=
  (id r, analysis_id r, farmer_address r, image_hash r, created_at r).

(** * Properties *)

(** ** The parser on small texts *)

Example JSON_parse_nested :
  JSON_parse (jsonlit " {'a': [1, 2.50e-3, -0, true, null, 'x\nA'], 'b': {}} ")
  = Some (JObject
            [ (lit "a", JArray [ JNumber false 1 0; JNumber false 250 (-5);
                                 JNumber true 0 0; JBool true; JNull;
                                 JString [120; 10; 65] ]);
              (lit "b", JObject []) ]).
Proof. vm_compute. reflexivity. Qed.

Example JSON_parse_duplicate_key :
  JSON_parse (jsonlit "{'a':1,'b':2,'a':3}")
  = Some (JObject [(lit "a", JNumber false 3 0); (lit "b", JNumber false 2 0)]).
Proof. vm_compute. reflexivity. Qed.

Example JSON_parse_rejects :
  JSON_parse (jsonlit "{'a':1}}") = None
  ∧ JSON_parse (jsonlit "{'a':01}") = None
  ∧ JSON_parse (jsonlit "{'a':1,}") = None
  ∧ JSON_parse (jsonlit "{a:1}") = None
  ∧ JSON_parse (jsonlit "[1,]") = None
  ∧ JSON_parse (jsonlit "{'a':.5}") = None
  ∧ JSON_parse (lit "") = None.
Proof. vm_compute. repeat split. Qed.

Example jsonMatch_greedy :
  jsonMatch (lit "ab{cd}ef}gh{") = Some (lit "{cd}ef}")
  ∧ jsonMatch (lit "ab}{cd") = None.
Proof. vm_compute. split; reflexivity. Qed.

Example errorMessage_cases :
  errorMessage (lit "Returned error: insufficient funds for gas")
  = lit "Insufficient ETH balance for transaction"
  ∧ errorMessage (lit "MetaMask Tx Signature: User denied transaction signature.")
    = lit "Transaction was cancelled by user"
  ∧ errorMessage (lit "Invalid Ethereum address")
    = lit "Please connect a valid Ethereum wallet"
  ∧ errorMessage (lit "Network Error") = lit "Network Error"
  ∧ errorMessage [] = lit "Payment failed. Please try again.".
Proof. vm_compute. repeat split. Qed.

(** ** The match of the regular expression *)

Lemma star_rbrace_none (s : jsstring) :
  Chr.rbrace ∉ s → star_rbrace s = None.
Proof.
  induction s as [|c s IH]; intros Hnot; [done|].
  apply not_elem_of_cons in Hnot as [Hc Hs]. simpl.
  rewrite (IH Hs). destruct (N.eqb_spec c Chr.rbrace); congruence.
Qed.

Lemma star_rbrace_last (inner post : jsstring) :
  Chr.rbrace ∉ post →
  star_rbrace (inner ++ Chr.rbrace :: post) = Some (inner ++ [Chr.rbrace]).
Proof.
  intros Hpost. induction inner as [|c inner IH]; simpl.
  - by rewrite (star_rbrace_none post Hpost).
  - by rewrite IH.
Qed.

(** The match runs from the first [{] of the text to its last [}]. *)
Lemma jsonMatch_span (pre inner post : jsstring) :
  Chr.lbrace ∉ pre → Chr.rbrace ∉ post →
  jsonMatch (pre ++ Chr.lbrace :: inner ++ Chr.rbrace :: post)
  = Some (Chr.lbrace :: inner ++ [Chr.rbrace]).
Proof.
  intros Hpre Hpost. induction pre as [|c pre IH]; simpl.
  - by rewrite star_rbrace_last.
  - apply not_elem_of_cons in Hpre as [Hc Hpre].
    destruct (N.eqb_spec c Chr.lbrace); [congruence|]. by apply IH.
Qed.

(** A text without [{] has no match, and neither has one whose [}] all come
    before its first [{]. *)
Lemma jsonMatch_none (pre post : jsstring) :
  Chr.lbrace ∉ pre → Chr.rbrace ∉ post →
  jsonMatch (pre ++ post) = None.
Proof.
  intros Hpre Hpost. induction pre as [|c pre IH]; simpl.
  - induction post as [|c post IH]; [done|].
    apply not_elem_of_cons in Hpost as [Hc Hpost]. simpl.
    rewrite (star_rbrace_none post Hpost), (IH Hpost).
    by destruct (c =? Chr.lbrace).
  - apply not_elem_of_cons in Hpre as [Hc Hpre].
    destruct (N.eqb_spec c Chr.lbrace); [congruence|]. by apply IH.
Qed.

Lemma jsonMatch_no_lbrace (text : jsstring) :
  Chr.lbrace ∉ text → jsonMatch text = None.
Proof.
  intros H. rewrite <- (app_nil_r text). apply jsonMatch_none; [done|].
  apply not_elem_of_nil.
Qed.

(** ** [JSON.parse]: every call consumes input, so the fuel is enough *)

Lemma skip_ws_length (s : jsstring) : (length (skip_ws s) ≤ length s)%nat.
Proof. induction s as [|c s IH]; simpl; [done|]. destruct (is_ws c); simpl; lia. Qed.

Lemma skip_ws_cons (s r : jsstring) (c : N) :
  skip_ws s = c :: r → (length r < length s)%nat.
Proof. intros H. pose proof (skip_ws_length s) as Hl. rewrite H in Hl. simpl in Hl. lia. Qed.

Lemma digits_length (s : jsstring) (acc : N) (k : nat) :
  (length (digits s acc k).2 ≤ length s)%nat.
Proof.
  revert acc k. induction s as [|c s IH]; intros acc k; simpl; [done|].
  destruct (is_digit c); simpl; [|done]. specialize (IH (10 * acc + (c - Chr.zero)) (S k)). lia.
Qed.

Lemma string_body_length (s acc k r : jsstring) :
  string_body s acc = Some (k, r) → (length r < length s)%nat.
Proof.
  revert acc. induction s as [s IH] using (induction_ltof1 _ (@length N)); unfold ltof in IH.
  intros acc Hs. destruct s as [|c s]; [done|]. simpl in Hs.
  destruct (c =? Chr.quote). { injection Hs as _ <-. simpl. lia. }
  destruct (c =? Chr.backslash).
  - destruct s as [|e s]; [done|].
    repeat match type of Hs with
    | (if ?b then _ else _) = _ => destruct b; [apply IH in Hs; simpl in *; lia|]
    end.
    destruct (e =? 117); [|done].
    destruct s as [|h1 [|h2 [|h3 [|h4 s]]]]; try done.
    destruct (hex_digit h1), (hex_digit h2), (hex_digit h3), (hex_digit h4); try done.
    apply IH in Hs; simpl in *; lia.
  - destruct (c <? Chr.space); [done|]. apply IH in Hs; simpl in *; lia.
Qed.

Lemma strip_prefix_length (p s r : jsstring) :
  strip_prefix p s = Some r → (length r + length p = length s)%nat.
Proof.
  revert s. induction p as [|a p IH]; intros s H; simpl in H.
  - destruct s; injection H as <-; simpl; lia.
  - destruct s as [|b s]; [done|]. destruct (a =? b); [|done].
    apply IH in H. simpl. lia.
Qed.

Lemma number_length (s r : jsstring) (v : json) :
  number s = Some (v, r) → (length r < length s)%nat.
Proof.
  unfold number. intros H.
  assert (Hsign : ∃ neg s0, (match s with
                  | c :: r0 => if c =? Chr.minus then (true, r0) else (false, s)
                  | [] => (false, [])
                  end) = (neg, s0) ∧ (length s0 ≤ length s)%nat).
  { destruct s as [|c s]; [by exists false, []|]. destruct (c =? Chr.minus); eexists _, _; split; try done; simpl; lia. }
  destruct Hsign as (neg & s0 & Heq & Hl0). rewrite Heq in H. clear Heq.
  destruct (number_int s0) as [[i s1]|] eqn:Hint; [|done]. simpl in H.
  destruct (number_frac i s1) as [[[m k] s2]|] eqn:Hfrac; [|done]. simpl in H.
  destruct (number_exp s2) as [[e s3]|] eqn:Hexp; [|done]. simpl in H.
  injection H as _ <-.
  assert (length s1 < length s0)%nat.
  { unfold number_int in Hint. destruct s0 as [|c s0]; [done|].
    destruct (c =? Chr.zero). { injection Hint as _ <-. simpl; lia. }
    destruct (is_digit c) eqn:Hd; [|done].
    simpl in Hint. rewrite Hd in Hint.
    pose proof (digits_length s0 (10 * 0 + (c - Chr.zero)) 1) as Hdl.
    destruct (digits s0 _ 1) as [[n ?] r']. injection Hint as _ <-. simpl in *. lia. }
  assert (length s2 ≤ length s1)%nat.
  { unfold number_frac in Hfrac. destruct s1 as [|c s1]; [by injection Hfrac as _ _ <-|].
    destruct (c =? Chr.dot); [|by injection Hfrac as _ _ <-].
    pose proof (digits_length s1 i 0) as Hdl.
    destruct (digits s1 i 0) as [[n k'] r']. destruct k'; [done|].
    injection Hfrac as _ _ <-. simpl in *. lia. }
  assert (length s3 ≤ length s2)%nat.
  { unfold number_exp in Hexp. destruct s2 as [|c s2]; [by injection Hexp as _ <-|].
    destruct ((c =? 101) || (c =? 69)); [|by injection Hexp as _ <-].
    assert (Hsg : ∃ sgn r1, (match s2 with
          | d :: r0 =>
              if d =? Chr.plus then (false, r0)
              else if d =? Chr.minus then (true, r0)
              else (false, s2)
          | [] => (false, [])
          end) = (sgn, r1) ∧ (length r1 ≤ length s2)%nat).
    { destruct s2 as [|d s2]; [by exists false, []|].
      destruct (d =? Chr.plus); [eexists _, _; split; [done|simpl; lia]|].
      destruct (d =? Chr.minus); eexists _, _; split; try done; simpl; lia. }
    destruct Hsg as (sgn & r1 & Heq & Hl1). rewrite Heq in Hexp.
    pose proof (digits_length r1 0 0) as Hdl.
    destruct (digits r1 0 0) as [[n k'] r2]. destruct k'; [done|].
    injection Hexp as _ <-. simpl in *. lia. }
  lia.
Qed.

Section parse_fuel.
  #[local] Arguments N.eqb : simpl never.
  #[local] Arguments strip_prefix : simpl never.
  #[local] Arguments number : simpl never.
  #[local] Arguments string_body : simpl never.
  #[local] Arguments skip_ws : simpl never.

Lemma parse_shrinks (fuel : nat) :
  (∀ s v r, parse_value fuel s = Some (v, r) → (length r < length s)%nat)
  ∧ (∀ s acc v r, parse_members fuel s acc = Some (v, r) → (length r < length s)%nat)
  ∧ (∀ s acc v r, parse_elements fuel s acc = Some (v, r) → (length r < length s)%nat).
Proof.
  induction fuel as [|fuel (IHv & IHm & IHe)]; [by repeat split|].
  split; [|split].
  - intros s v r H. simpl in H.
    destruct (skip_ws s) as [|c t] eqn:Hws; [done|]. apply skip_ws_cons in Hws.
    destruct (c =? Chr.lbrace).
    { destruct (skip_ws t) as [|c' t'] eqn:Hws'; [done|]. apply skip_ws_cons in Hws'.
      destruct (c' =? Chr.rbrace); [injection H as _ <-; lia|].
      apply IHm in H. lia. }
    destruct (c =? Chr.lbracket).
    { destruct (skip_ws t) as [|c' t'] eqn:Hws'; [done|]. apply skip_ws_cons in Hws'.
      destruct (c' =? Chr.rbracket); [injection H as _ <-; lia|].
      apply IHe in H. lia. }
    destruct (c =? Chr.quote).
    { destruct (string_body t []) as [[str r']|] eqn:Hstr; [|done].
      apply string_body_length in Hstr. injection H as _ <-. lia. }
    destruct (strip_prefix (lit "null") (c :: t)) as [r'|] eqn:Hn.
    { apply strip_prefix_length in Hn. injection H as _ <-. simpl in Hn. lia. }
    destruct (strip_prefix (lit "true") (c :: t)) as [r'|] eqn:Ht.
    { apply strip_prefix_length in Ht. injection H as _ <-. simpl in Ht. lia. }
    destruct (strip_prefix (lit "false") (c :: t)) as [r'|] eqn:Hf.
    { apply strip_prefix_length in Hf. injection H as _ <-. simpl in Hf. lia. }
    apply number_length in H. simpl in H. lia.
  - intros s acc v r H. simpl in H.
    destruct (skip_ws s) as [|c t] eqn:Hws; [done|]. apply skip_ws_cons in Hws.
    destruct (c =? Chr.quote); [|done].
    destruct (string_body t []) as [[k r1]|] eqn:Hstr; [|done].
    apply string_body_length in Hstr. simpl in H.
    destruct (skip_ws r1) as [|c1 r2] eqn:Hws1; [done|]. apply skip_ws_cons in Hws1.
    destruct (c1 =? Chr.colon); [|done].
    destruct (parse_value fuel r2) as [[v' r3]|] eqn:Hv; [|done].
    apply IHv in Hv. simpl in H.
    destruct (skip_ws r3) as [|c3 r4] eqn:Hws3; [done|]. apply skip_ws_cons in Hws3.
    destruct (c3 =? Chr.comma); [apply IHm in H; lia|].
    destruct (c3 =? Chr.rbrace); [|done]. injection H as _ <-. lia.
  - intros s acc v r H. simpl in H.
    destruct (parse_value fuel s) as [[v' r1]|] eqn:Hv; [|done].
    apply IHv in Hv. simpl in H.
    destruct (skip_ws r1) as [|c r2] eqn:Hws; [done|]. apply skip_ws_cons in Hws.
    destruct (c =? Chr.comma); [apply IHe in H; lia|].
    destruct (c =? Chr.rbracket); [|done]. injection H as _ <-. lia.
Qed.

Lemma parse_fuel (n : nat) : ∀ m : nat,
  (∀ s, (2 * length s < n)%nat → (2 * length s < m)%nat →
        parse_value n s = parse_value m s)
  ∧ (∀ s acc, (2 * length s < n)%nat → (2 * length s < m)%nat →
        parse_members n s acc = parse_members m s acc)
  ∧ (∀ s acc, (2 * length s + 1 < n)%nat → (2 * length s + 1 < m)%nat →
        parse_elements n s acc = parse_elements m s acc).
Proof.
  induction n as [|n IH]; intros m; [by repeat split; intros; lia|].
  destruct m as [|m]; [by repeat split; intros; lia|].
  destruct (IH m) as (IHv & IHm & IHe). clear IH.
  split; [|split].
  - intros s Hn Hm. simpl.
    destruct (skip_ws s) as [|c t] eqn:Hws; [done|]. apply skip_ws_cons in Hws.
    destruct (c =? Chr.lbrace).
    { destruct (skip_ws t) as [|c' t'] eqn:Hws'; [done|].
      destruct (c' =? Chr.rbrace); [done|]. apply IHm; lia. }
    destruct (c =? Chr.lbracket).
    { destruct (skip_ws t) as [|c' t'] eqn:Hws'; [done|].
      destruct (c' =? Chr.rbracket); [done|]. apply IHe; lia. }
    done.
  - intros s acc Hn Hm. simpl.
    destruct (skip_ws s) as [|c t] eqn:Hws; [done|]. apply skip_ws_cons in Hws.
    destruct (c =? Chr.quote); [|done].
    destruct (string_body t []) as [[k r1]|] eqn:Hstr; [|done].
    apply string_body_length in Hstr. simpl.
    destruct (skip_ws r1) as [|c1 r2] eqn:Hws1; [done|]. apply skip_ws_cons in Hws1.
    destruct (c1 =? Chr.colon); [|done].
    rewrite (IHv r2) by lia.
    destruct (parse_value m r2) as [[v' r3]|] eqn:Hv; [|done].
    apply (proj1 (parse_shrinks m)) in Hv. simpl.
    destruct (skip_ws r3) as [|c3 r4] eqn:Hws3; [done|]. apply skip_ws_cons in Hws3.
    destruct (c3 =? Chr.comma); [apply IHm; lia|done].
  - intros s acc Hn Hm. simpl.
    rewrite (IHv s) by lia.
    destruct (parse_value m s) as [[v' r1]|] eqn:Hv; [|done].
    apply (proj1 (parse_shrinks m)) in Hv. simpl.
    destruct (skip_ws r1) as [|c r2] eqn:Hws; [done|]. apply skip_ws_cons in Hws.
    destruct (c =? Chr.comma); [apply IHe; lia|done].
Qed.

(** More fuel than [JSON_parse] gives changes nothing. *)
Lemma parse_value_fuel (n : nat) (s : jsstring) :
  (2 * length s < n)%nat → parse_value n s = parse_value (S (2 * length s)) s.
Proof. intros Hn. apply parse_fuel; lia. Qed.

(** The match starts with a brace, and what parses from a brace is an
    object: reading a property of the result never throws. *)
Lemma jsonMatch_lbrace (text m : jsstring) :
  jsonMatch text = Some m → ∃ r, m = Chr.lbrace :: r.
Proof.
  induction text as [|c text IH]; [done|]. simpl.
  destruct (N.eqb_spec c Chr.lbrace) as [->|_]; [|done].
  destruct (star_rbrace text) as [r|]; simpl; [|done].
  intros [= <-]. by exists r.
Qed.

Lemma parse_members_object (fuel : nat) (s r : jsstring) acc (v : json) :
  parse_members fuel s acc = Some (v, r) → ∃ o, v = JObject o.
Proof.
  revert s acc. induction fuel as [|fuel IH]; intros s acc H; [done|]. simpl in H.
  destruct (skip_ws s) as [|c t]; [done|].
  destruct (c =? Chr.quote); [|done].
  destruct (string_body t []) as [[k r1]|]; [|done]. simpl in H.
  destruct (skip_ws r1) as [|c1 r2]; [done|].
  destruct (c1 =? Chr.colon); [|done].
  destruct (parse_value fuel r2) as [[v' r3]|]; [|done]. simpl in H.
  destruct (skip_ws r3) as [|c3 r4]; [done|].
  destruct (c3 =? Chr.comma); [by eapply IH|].
  destruct (c3 =? Chr.rbrace); [|done]. injection H as <- _. by eexists.
Qed.

End parse_fuel.

Lemma structured_object (text : jsstring) (v : json) :
  structured text = Some v → ∃ o, v = JObject o.
Proof.
  unfold structured. destruct (jsonMatch text) as [m|] eqn:Hm; [|done]. simpl.
  apply jsonMatch_lbrace in Hm as [r ->]. unfold JSON_parse.
  destruct (parse_value _ _) as [[v' r']|] eqn:Hv; [|done]. simpl.
  destruct (skip_ws r'); [|done]. intros [= <-].
  change (parse_value (S (2 * length (Chr.lbrace :: r))) (Chr.lbrace :: r))
    with (match skip_ws r with
          | c' :: r'' =>
              if c' =? Chr.rbrace then Some (JObject [], r'')
              else parse_members (2 * length (Chr.lbrace :: r)) r []
          | [] => None
          end) in Hv.
  destruct (skip_ws r) as [|c' r'']; [done|].
  destruct (c' =? Chr.rbrace); [injection Hv as <- _; by eexists|].
  by eapply parse_members_object.
Qed.

Lemma analysisResult_object (text : jsstring) : ∃ o, analysisResult text = JObject o.
Proof.
  unfold analysisResult. destruct (structured text) as [v|] eqn:Hv.
  - by eapply structured_object.
  - by eexists.
Qed.

(** ** The normalizer *)

Lemma structured_span (pre inner post : jsstring) :
  Chr.lbrace ∉ pre → Chr.rbrace ∉ post →
  structured (pre ++ Chr.lbrace :: inner ++ Chr.rbrace :: post)
  = JSON_parse (Chr.lbrace :: inner ++ [Chr.rbrace]).
Proof.
  intros Hpre Hpost. unfold structured. by rewrite jsonMatch_span.
Qed.

Lemma schema_ok_fallback (text : jsstring) : schema_ok (fallback text) = true.
Proof. reflexivity. Qed.

(** C6: when structured parsing fails (no match, or a match that is not
    JSON), the result is the fallback: the diagnosis is the first 200 code
    units of the text followed by [...], the advice is the fixed referral
    message, the severity is [medium] and the confidence is 0.75. *)
Theorem C6_fallback_on_parse_failure (text : jsstring) :
  structured text = None →
  analysisResult text
  = JObject
      [ (lit "diagnosis", JString (take 200 text ++ lit "..."));
        (lit "advice",
         JString (lit "Please consult with a local agricultural expert for detailed treatment recommendations."));
        (lit "severity", JString (lit "medium"));
        (lit "confidence", JNumber false 75 (-2)) ]
  ∧ length (take 200 text) = (200 `min` length text)%nat.
Proof.
  intros Hfail. unfold analysisResult. rewrite Hfail. split; [done|].
  apply length_take.
Qed.

Lemma C6_fallback_witness :
  structured yellowing = None
  ∧ (200 < length yellowing)%nat
  ∧ get_prop (analysisResult yellowing) "diagnosis"
    = Some (JString (take 200 yellowing ++ lit "..."))
  ∧ get_prop (analysisResult yellowing) "severity" = Some (JString (lit "medium"))
  ∧ get_prop (analysisResult yellowing) "confidence" = Some (JNumber false 75 (-2)).
Proof.
  assert (Hfail : structured yellowing = None) by (vm_compute; reflexivity).
  destruct (C6_fallback_on_parse_failure yellowing Hfail) as [Hres _].
  rewrite Hres. split; [exact Hfail|]. split; [vm_compute; lia|].
  split; [|split]; reflexivity.
Defined.

(** C10: for a text shorter than 200 code units on which structured
    parsing fails, the fallback diagnosis is the whole text followed by
    [...]: the marker is appended although nothing was cut. *)
Theorem C10_short_text_keeps_ellipsis (text : jsstring) :
  (length text < 200)%nat →
  structured text = None →
  get_prop (analysisResult text) "diagnosis" = Some (JString (text ++ lit "...")).
Proof.
  intros Hshort Hfail. unfold analysisResult. rewrite Hfail.
  unfold fallback. rewrite take_ge by lia. reflexivity.
Qed.

Lemma C10_short_text_witness :
  get_prop (analysisResult (lit "healthy plant")) "diagnosis"
  = Some (JString (lit "healthy plant..."))
  ∧ get_prop (analysisResult []) "diagnosis" = Some (JString (lit "...")).
Proof.
  split.
  - apply (C10_short_text_keeps_ellipsis (lit "healthy plant")).
    + vm_compute; lia.
    + vm_compute; reflexivity.
  - apply (C10_short_text_keeps_ellipsis []).
    + vm_compute; lia.
    + vm_compute; reflexivity.
Defined.

(** C2, as the design document states it, fails: the object below parses,
    its severity is [critical] and its confidence is 1.5, and it is returned
    as it is, not replaced by the fallback. *)
Lemma C2_counterexample :
  ¬ (∀ (text : jsstring) (v : json),
       structured text = Some v → schema_ok v = false →
       analysisResult text = fallback text).
Proof.
  intros Hclaim.
  specialize (Hclaim critical_text critical).
  assert (Hparse : structured critical_text = Some critical)
    by (vm_compute; reflexivity).
  specialize (Hclaim Hparse eq_refl).
  unfold analysisResult in Hclaim. rewrite Hparse in Hclaim.
  vm_compute in Hclaim. discriminate Hclaim.
Qed.

(** C2, amended: an extracted object that parses is returned as it is,
    whatever its fields hold; when a field violates the schema the result
    is therefore that object and differs from the fallback.  The fallback
    branch is taken exactly when the regular expression finds no span or
    [JSON.parse] rejects the span, and the result is then the fallback. *)
Theorem C2_parsed_object_is_trusted (text : jsstring) :
  (∀ v, structured text = Some v →
        analysisResult text = v
        ∧ (schema_ok v = false → analysisResult text ≠ fallback text))
  ∧ (structured text = None
     ↔ (jsonMatch text = None
        ∨ ∃ m, jsonMatch text = Some m ∧ JSON_parse m = None))
  ∧ (structured text = None → analysisResult text = fallback text).
Proof.
  split; [|split].
  - intros v Hparse. unfold analysisResult. rewrite Hparse.
    split; [done|]. intros Hbad ->. by rewrite schema_ok_fallback in Hbad.
  - unfold structured. destruct (jsonMatch text) as [m|]; simpl.
    + split; [intros Hm; right; by exists m|].
      intros [?|(m' & [= <-] & Hm)]; done.
    + split; [by left|done].
  - intros Hfail. unfold analysisResult. by rewrite Hfail.
Qed.

Lemma C2_parsed_object_witness :
  analysisResult critical_text = critical
  ∧ analysisResult critical_text ≠ fallback critical_text
  ∧ analysisResult yellowing = fallback yellowing.
Proof.
  destruct (C2_parsed_object_is_trusted critical_text) as (Hparsed & _ & _).
  destruct (C2_parsed_object_is_trusted yellowing) as (_ & _ & Hfallback).
  destruct (Hparsed critical) as [Hsame Hnot]; [vm_compute; reflexivity|].
  split; [exact Hsame|]. split.
  - apply Hnot. vm_compute; reflexivity.
  - apply Hfallback. vm_compute; reflexivity.
Defined.

(** C5, as stated, fails: the match runs to the last [}] of the text, so a
    [}] in the prose after the object makes the span something that is not
    JSON, and the fallback is returned. *)
Lemma C5_counterexample :
  ¬ (∀ pre post : jsstring,
       analysisResult (pre ++ leaf_rust_text ++ post) = leaf_rust).
Proof.
  intros Hclaim. specialize (Hclaim (lit "Result: ") (lit " (see the set {rust}).")).
  vm_compute in Hclaim. discriminate Hclaim.
Qed.

(** C5, amended: when the prose before the object has no [{] and the prose
    after it has no [}], the result is exactly the object; the span parsed
    runs from the first [{] of the text to its last [}]. *)
Theorem C5_embedded_object_roundtrip (pre post : jsstring) :
  Chr.lbrace ∉ pre → Chr.rbrace ∉ post →
  jsonMatch (pre ++ leaf_rust_text ++ post) = Some leaf_rust_text
  ∧ analysisResult (pre ++ leaf_rust_text ++ post) = leaf_rust.
Proof.
  intros Hpre Hpost.
  assert (Hshape : ∃ inner, leaf_rust_text = Chr.lbrace :: inner ++ [Chr.rbrace]).
  { exists (take (length leaf_rust_text - 2) (drop 1 leaf_rust_text)). vm_compute. reflexivity. }
  destruct Hshape as [inner Hshape].
  assert (Htext : pre ++ leaf_rust_text ++ post
                  = pre ++ Chr.lbrace :: inner ++ Chr.rbrace :: post).
  { rewrite Hshape. simpl. by rewrite <- app_assoc. }
  split.
  - rewrite Htext, Hshape. by apply jsonMatch_span.
  - unfold analysisResult. rewrite Htext, structured_span by done.
    rewrite <- Hshape. vm_compute. reflexivity.
Qed.

Lemma C5_embedded_object_witness :
  analysisResult (lit "Here is my analysis: " ++ leaf_rust_text ++ lit " Hope this helps!")
  = leaf_rust.
Proof.
  apply (C5_embedded_object_roundtrip (lit "Here is my analysis: ") (lit " Hope this helps!")).
  - compute_done.
  - compute_done.
Defined.

(** ** The analyze route *)

Ltac run_handler :=
  cbv [analyze history handlePayment try_catch try_finally throw await
       mbind mret ST_bind ST_ret readFileSync unlinkSync generateContent
       query_update setIsProcessing setError setTransactionHash
       onPaymentSuccess]; simpl.

(** C7: when inference or persistence fails after the upload, the route
    deletes the uploaded file, answers with status 500 and the body
    [{error: 'Analysis failed. Please try again later.'}], and the table is
    as it was.  (Normalization never fails: it falls back.) *)
Theorem C7_failure_releases_upload
    (e : env) (f : upload) (a : jsstring) (σ : server) (data : list N) :
  files σ !! path f = Some data →
  a ≠ [] →
  model_reply e = None ∨ query_ok e = false →
  analyze e (AnalyzeReq (Some f) (Some a)) σ
  = (inr (Response 500
            (Json (JObject
                     [(lit "error",
                       JString (lit "Analysis failed. Please try again later."))]))),
     Server (delete (path f) (files σ)) (analyses σ))
  ∧ files (analyze e (AnalyzeReq (Some f) (Some a)) σ).2 !! path f = None
  ∧ analyses (analyze e (AnalyzeReq (Some f) (Some a)) σ).2 = analyses σ.
Proof.
  intros Hfile Ha Hfail. destruct a as [|c a]; [done|].
  assert (Hrun : analyze e (AnalyzeReq (Some f) (Some (c :: a))) σ
                 = (inr (Response 500
                           (Json (JObject
                                    [(lit "error",
                                      JString (lit "Analysis failed. Please try again later."))]))),
                    Server (delete (path f) (files σ)) (analyses σ))).
  { run_handler. rewrite Hfile.
    destruct (model_reply e) as [text|] eqn:Hreply; simpl.
    - destruct Hfail as [?|Hq]; [done|]. rewrite Hq. simpl. by rewrite Hfile.
    - by rewrite Hfile. }
  rewrite Hrun. split; [done|]. split; [apply lookup_delete_eq|done].
Qed.

Lemma C7_failure_witness :
  let σ := Server {[ path leaf_png := [137; 80; 78; 71] ]} [pending42] in
  analyze (Env None true 200) (AnalyzeReq (Some leaf_png) (Some (lit "42"))) σ
  = (inr (Response 500
            (Json (JObject
                     [(lit "error",
                       JString (lit "Analysis failed. Please try again later."))]))),
     Server (delete (path leaf_png) (files σ)) [pending42])
  ∧ analyze (Env (Some yellowing) false 200)
      (AnalyzeReq (Some leaf_png) (Some (lit "42"))) σ
    = (inr (Response 500
              (Json (JObject
                       [(lit "error",
                         JString (lit "Analysis failed. Please try again later."))]))),
       Server (delete (path leaf_png) (files σ)) [pending42]).
Proof.
  intros σ. split.
  - apply (C7_failure_releases_upload _ leaf_png (lit "42") σ [137; 80; 78; 71]).
    + vm_compute; reflexivity.
    + compute_done.
    + left; reflexivity.
  - apply (C7_failure_releases_upload _ leaf_png (lit "42") σ [137; 80; 78; 71]).
    + vm_compute; reflexivity.
    + compute_done.
    + right; reflexivity.
Defined.

(** The route always answers: every exception ends in the 500 response. *)
Lemma analyze_responds (e : env) (req : analyze_req) (σ : server) :
  ∃ resp, (analyze e req σ).1 = inr resp
          ∧ (status resp = 200 ∨ status resp = 400 ∨ status resp = 500)%Z.
Proof.
  destruct req as [[f|] [[|c a]|]]; run_handler; eauto;
    try (destruct (files σ !! path f); simpl; eauto; fail).
  destruct (files σ !! path f) as [data|] eqn:Hfile; simpl; [|rewrite Hfile; eauto].
  destruct (model_reply e) as [text|]; simpl; [|rewrite Hfile; eauto].
  destruct (query_ok e); simpl; rewrite Hfile; simpl; eauto.
Qed.

(** What a request to the analyze route can do to the table: nothing, or
    the completion write with the four properties of the result. *)
Lemma analyze_analyses (e : env) (req : analyze_req) (σ : server) :
  analyses (analyze e req σ).2 = analyses σ
  ∨ ∃ text a,
      model_reply e = Some text ∧ analysisId req = Some a ∧
      analyses (analyze e req σ).2
      = update_row (NOW e)
          (param (get_prop (analysisResult text) "diagnosis"))
          (param (get_prop (analysisResult text) "advice"))
          (param (get_prop (analysisResult text) "confidence"))
          (param (get_prop (analysisResult text) "severity")) a
        <$> analyses σ.
Proof.
  destruct req as [[f|] [[|c a]|]]; run_handler; auto;
    try (destruct (files σ !! path f); simpl; auto; fail).
  destruct (files σ !! path f) as [data|] eqn:Hfile; simpl; [|by rewrite Hfile; auto].
  destruct (model_reply e) as [text|]; simpl; [|by rewrite Hfile; auto].
  destruct (query_ok e); simpl; [|by rewrite Hfile; auto].
  rewrite Hfile. simpl. right. by exists text, (c :: a).
Qed.

Lemma update_row_analysis_id now p1 p2 p3 p4 a (r : row) :
  analysis_id (update_row now p1 p2 p3 p4 a r) = analysis_id r.
Proof. unfold update_row. by case_decide. Qed.

Lemma update_row_other now p1 p2 p3 p4 a (r : row) :
  analysis_id r ≠ a → update_row now p1 p2 p3 p4 a r = r.
Proof. intros Hne. unfold update_row. by case_decide. Qed.

Lemma update_rows_ids now p1 p2 p3 p4 a (t : list row) :
  analysis_id <$> (update_row now p1 p2 p3 p4 a <$> t) = analysis_id <$> t.
Proof.
  rewrite <- list_fmap_compose. apply list_fmap_ext.
  intros ? r _. apply update_row_analysis_id.
Qed.

(** No request to the analyze route adds, removes or renames a record. *)
Lemma analyze_ids (e : env) (req : analyze_req) (σ : server) :
  analysis_id <$> analyses (analyze e req σ).2 = analysis_id <$> analyses σ.
Proof.
  destruct (analyze_analyses e req σ) as [->|(text & a & _ & _ & ->)]; [done|].
  apply update_rows_ids.
Qed.

Lemma history_server (e : env) (farmerAddress : jsstring) (σ : server) :
  (history e farmerAddress σ).2 = σ.
Proof. run_handler. by destruct (query_ok e). Qed.

Lemma step_ids (w : world) (o : op) :
  analysis_id <$> analyses (backend (step w o)) = analysis_id <$> analyses (backend w).
Proof.
  destruct o as [p|e image a|e addr|]; simpl; [done| |by rewrite history_server|done].
  destruct (accepted image); [|done]. simpl.
  rewrite analyze_ids. by destruct image as [[u data]|].
Qed.

(** No sequence of payments and requests changes which identifiers the
    table holds: the system has no operation that inserts a record. *)
Lemma run_ids (ops : list op) (w : world) :
  analysis_id <$> analyses (backend (run ops w)) = analysis_id <$> analyses (backend w).
Proof.
  revert w. induction ops as [|o ops IH]; intros w; [done|].
  unfold run in *. simpl. by rewrite IH, step_ids.
Qed.

(** C1, on the code: the click pays, the transaction emits
    [PaymentReceived] with identifier 42, and [onPaymentSuccess] receives
    ["42"]; the table, empty before, is still empty, stays empty whatever
    requests follow, and the history of the payer is empty. *)
Theorem C1_no_record_after_payment :
  let w := run [Pay paid42] (World (Server ∅ []) idle) in
  delivered (frontend w) = [lit "42"]
  ∧ analyses (backend w) = []
  ∧ (∀ ops, analyses (backend (run ops w)) = [])
  ∧ (∀ ops now,
       (history (Env None true now) (lit "0xabc") (backend (run ops w))).1
       = inr (Response 200 (Rows []))).
Proof.
  intros w.
  assert (Hempty : ∀ ops, analyses (backend (run ops w)) = []).
  { intros ops. apply fmap_nil_inv with (f := analysis_id). by rewrite run_ids. }
  split; [by vm_compute|]. split; [done|]. split; [done|].
  intros ops now. run_handler. by rewrite Hempty.
Qed.

Lemma no_pending_spec (a : jsstring) (t : list row) :
  no_pending a t ↔ ∀ r, r ∈ t → analysis_id r = a → ¬ pending r.
Proof.
  unfold no_pending. rewrite list_elem_of_fmap. split.
  - intros Hnot r Hr Hid Hp. apply Hnot. exists r. split; [done|].
    by apply list_elem_of_filter.
  - intros Hall (r & -> & [Hp Hr]%list_elem_of_filter). by apply (Hall r).
Qed.

(** C3, as stated, fails: with no record of identifier 42 in the table, the
    request that writes the completion for 42 is answered 200 with the
    result; nothing reports that the identifier is unknown. *)
Lemma C3_counterexample :
  ¬ (∀ (e : env) (req : analyze_req) (a : jsstring) (σ : server),
       analysisId req = Some a →
       no_pending a (analyses σ) →
       ¬ succeeded (analyze e req σ).1).
Proof.
  intros Hclaim.
  apply (Hclaim (Env (Some leaf_rust_text) true 200)
           (AnalyzeReq (Some leaf_png) (Some (lit "42"))) (lit "42")
           (Server {[ path leaf_png := [137; 80; 78; 71] ]} [])).
  - reflexivity.
  - compute_done.
  - vm_compute. reflexivity.
Qed.

(** C3, amended: for an identifier with no pending record, the completion
    write creates no record: the table holds the same identifiers in the
    same order, its pending records are untouched, and when no record at
    all has the identifier the table is unchanged. *)
Theorem C3_unknown_id_creates_nothing
    (e : env) (req : analyze_req) (a : jsstring) (σ : server) :
  analysisId req = Some a →
  no_pending a (analyses σ) →
  analysis_id <$> analyses (analyze e req σ).2 = analysis_id <$> analyses σ
  ∧ filter pending (analyses (analyze e req σ).2) = filter pending (analyses σ)
  ∧ (a ∉ analysis_id <$> analyses σ → analyses (analyze e req σ).2 = analyses σ).
Proof.
  intros Ha Hnone. split; [apply analyze_ids|].
  pose proof (proj1 (no_pending_spec _ _) Hnone) as Hall. clear Hnone.
  rename Hall into Hnone.
  destruct (analyze_analyses e req σ) as [->|(text & a' & _ & Ha' & ->)]; [done|].
  assert (a' = a) as -> by congruence.
  generalize dependent (analyses σ). intros t Hnone. split.
  - induction t as [|r t IH]; [done|].
    rewrite fmap_cons, !filter_cons, IH.
    2:{ intros r' Hr'. apply Hnone. by right. }
    destruct (decide (analysis_id r = a)) as [Hid|Hid].
    + assert (¬ pending r) by (apply Hnone; [by left|done]).
      rewrite (decide_False (P := pending r)) by done.
      rewrite decide_False; [done|].
      unfold update_row, pending. by rewrite decide_True.
    + by rewrite update_row_other.
  - intros Hnot. induction t as [|r t IH]; [done|].
    rewrite fmap_cons in *.
    apply not_elem_of_cons in Hnot as [Hr Ht].
    rewrite update_row_other by done. f_equal. apply IH; [|done].
    intros r' Hr'. apply Hnone. by right.
Qed.

Lemma C3_unknown_id_witness :
  let σ := Server {[ path leaf_png := [137; 80; 78; 71] ]} [pending42] in
  analyses (analyze (Env (Some leaf_rust_text) true 200)
              (AnalyzeReq (Some leaf_png) (Some (lit "7"))) σ).2
  = [pending42].
Proof.
  intros σ.
  apply (C3_unknown_id_creates_nothing (Env (Some leaf_rust_text) true 200)
           (AnalyzeReq (Some leaf_png) (Some (lit "7"))) (lit "7") σ).
  - reflexivity.
  - compute_done.
  - compute_done.
Defined.

(** ** The record invariant *)

Lemma complete_result_fallback (text : jsstring) : complete_result (fallback text).
Proof. unfold complete_result. simpl. repeat split; by eexists. Qed.

Lemma update_row_ok now p1 p2 p3 p4 a (r : row) :
  is_Some p1 → is_Some p2 → is_Some p3 → is_Some p4 →
  record_ok r → record_ok (update_row now p1 p2 p3 p4 a r).
Proof.
  intros ? ? ? ? Hr. unfold update_row. case_decide; [|done].
  right. simpl. repeat split; by eauto.
Qed.

Lemma step_record_ok (w : world) (o : op) :
  reply_complete o →
  Forall record_ok (analyses (backend w)) →
  Forall record_ok (analyses (backend (step w o))).
Proof.
  intros Ho Hw. destruct o as [p|e image a|e addr|]; simpl;
    [done| |by rewrite history_server|done].
  destruct (accepted image); [|done]. simpl.
  destruct (analyze_analyses e (AnalyzeReq (fst <$> image) a)
              (store_upload image (backend w)))
    as [->|(text & a' & Hreply & _ & ->)].
  - by destruct image as [[u data]|].
  - simpl in Ho. rewrite Hreply in Ho. destruct Ho as (? & ? & ? & ?).
    apply Forall_fmap. destruct image as [[u data]|]; simpl;
      (eapply Forall_impl; [exact Hw|]); intros r Hr; by apply update_row_ok.
Qed.

(** C4, as stated, fails: the record of identifier 42 is pending; the model
    replies with an object that has no confidence, which parses; the
    completion write sets [completed_at] and stores [NULL] as confidence. *)
Lemma C4_counterexample :
  ¬ (∀ (ops : list op) (w : world),
       Forall record_ok (analyses (backend w)) →
       Forall record_ok (analyses (backend (run ops w)))).
Proof.
  intros Hclaim.
  specialize (Hclaim
    [PostAnalyze (Env (Some unsure_text) true 200)
       (Some (leaf_png, [137; 80; 78; 71])) (Some (lit "42"))]
    (World (Server ∅ [pending42]) idle)).
  assert (Hbefore : Forall record_ok [pending42]) by compute_done.
  specialize (Hclaim Hbefore).
  assert (Hafter : analyses (backend (run
            [PostAnalyze (Env (Some unsure_text) true 200)
               (Some (leaf_png, [137; 80; 78; 71])) (Some (lit "42"))]
            (World (Server ∅ [pending42]) idle)))
          = [Row 1 (lit "42") (lit "0xabc") (lit "0x9f86d0")
               (Some (JString (lit "leaf rust")))
               (Some (JString (lit "apply fungicide")))
               None
               (Some (JString (lit "high")))
               (Some 100%Z) (Some 200%Z)])
    by (vm_compute; reflexivity).
  rewrite Hafter, Forall_singleton in Hclaim.
  unfold record_ok, pending in Hclaim. simpl in Hclaim.
  destruct Hclaim as [Hp|Hc]; [discriminate Hp|].
  destruct Hc as (_ & _ & _ & _ & Hd). by apply is_Some_None in Hd.
Qed.

(** C4, amended: over any sequence of payments and requests in which every
    text the model returns yields a result with diagnosis, advice, severity
    and confidence all present and not null, every record stays pending or
    completed with the four fields set.  The fallback is such a result. *)
Theorem C4_records_pending_or_complete (ops : list op) (w : world) :
  Forall reply_complete ops →
  Forall record_ok (analyses (backend w)) →
  Forall record_ok (analyses (backend (run ops w)))
  ∧ (∀ text, structured text = None → complete_result (analysisResult text)).
Proof.
  intros Hops Hw. split.
  - revert w Hw. induction Hops as [|o ops Ho Hops IH]; intros w Hw; [done|].
    unfold run in *. simpl. apply IH. by apply step_record_ok.
  - intros text Hfail. unfold analysisResult. rewrite Hfail.
    apply complete_result_fallback.
Qed.

Lemma C4_records_witness :
  let ops := [ Pay paid42;
               PostAnalyze (Env (Some leaf_rust_text) true 200)
                 (Some (leaf_png, [137; 80; 78; 71])) (Some (lit "42"));
               PostAnalyze (Env (Some yellowing) true 300)
                 (Some (leaf_png, [137; 80; 78; 71])) (Some (lit "42"));
               GetAnalyses (Env None true 400) (lit "0xabc") ] in
  Forall record_ok (analyses (backend (run ops (World (Server ∅ [pending42]) idle)))).
Proof.
  intros ops.
  apply (C4_records_pending_or_complete ops (World (Server ∅ [pending42]) idle)).
  - compute_done.
  - compute_done.
Defined.

(** ** The history route *)

#[local] Instance ts_le_total : Total ts_le.
Proof. intros [x|] [y|]; simpl; auto. lia. Qed.

#[local] Instance ts_le_trans : Transitive ts_le.
Proof. intros [x|] [y|] [z|]; simpl; auto; try done. lia. Qed.

#[local] Instance created_desc_total : Total created_desc.
Proof. intros r1 r2. unfold created_desc. apply total, _. Qed.

#[local] Instance created_desc_trans : Transitive created_desc.
Proof. intros r1 r2 r3 H12 H23. unfold created_desc in *. by etrans. Qed.

Lemma StronglySorted_lookup {A} (R : relation A) (l : list A) (i j : nat) (x y : A) :
  StronglySorted R l → (i < j)%nat → l !! i = Some x → l !! j = Some y → R x y.
Proof.
  intros Hsorted. revert i j.
  induction Hsorted as [|a l Hl IH Ha]; intros i j Hij Hi Hj; [done|].
  destruct j as [|j]; [lia|]. destruct i as [|i]; simpl in *.
  - injection Hi as ->. eapply Forall_forall; [exact Ha|].
    by eapply list_elem_of_lookup_2.
  - apply (IH i j); [lia|done..].
Qed.

(** C8: the history of an owner is exactly the records of that owner,
    pending and completed alike, none of another owner, each as often as
    the table has it, ordered by creation time with the most recent first
    (a record without creation time sorts before the others, as the
    database orders [NULL] when descending). *)
Theorem C8_history_by_owner (e : env) (farmerAddress : jsstring) (σ : server) :
  query_ok e = true →
  ∃ rows,
    history e farmerAddress σ = (inr (Response 200 (Rows rows)), σ)
    ∧ (∀ r, r ∈ rows ↔ r ∈ analyses σ ∧ farmer_address r = farmerAddress)
    ∧ rows ≡ₚ filter (λ r, farmer_address r = farmerAddress) (analyses σ)
    ∧ StronglySorted created_desc rows
    ∧ (∀ i j r1 r2 t1 t2,
         (i < j)%nat → rows !! i = Some r1 → rows !! j = Some r2 →
         created_at r1 = Some t1 → created_at r2 = Some t2 → (t2 ≤ t1)%Z).
Proof.
  intros Hq. exists (select_by_farmer farmerAddress (analyses σ)).
  assert (Hperm : select_by_farmer farmerAddress (analyses σ)
                  ≡ₚ filter (λ r, farmer_address r = farmerAddress) (analyses σ))
    by apply merge_sort_Permutation.
  assert (Hsorted : StronglySorted created_desc
                      (select_by_farmer farmerAddress (analyses σ)))
    by apply (StronglySorted_merge_sort created_desc).
  split; [|split; [|split; [done|split; [done|]]]].
  - run_handler. by rewrite Hq.
  - intros r. rewrite Hperm, list_elem_of_filter. tauto.
  - intros i j r1 r2 t1 t2 Hij H1 H2 Ht1 Ht2.
    pose proof (StronglySorted_lookup _ _ _ _ _ _ Hsorted Hij H1 H2) as Hdesc.
    unfold created_desc in Hdesc. by rewrite Ht1, Ht2 in Hdesc.
Qed.

Lemma C8_history_witness :
  history (Env None true 300) (lit "0xabc") (Server ∅ history_sample)
  = (inr (Response 200 (Rows
       [ Row 3 (lit "43") (lit "0xabc") (lit "0x33")
           (Some (JString (lit "leaf rust"))) (Some (JString (lit "apply fungicide")))
           (Some (JNumber false 9 (-1))) (Some (JString (lit "high")))
           (Some 200%Z) (Some 260%Z);
         Row 1 (lit "41") (lit "0xabc") (lit "0x11") None None None None
           (Some 100%Z) None ])),
     Server ∅ history_sample).
Proof.
  destruct (C8_history_by_owner (Env None true 300) (lit "0xabc")
              (Server ∅ history_sample) eq_refl) as (rows & Hresp & _).
  rewrite Hresp. f_equal. injection Hresp as Hrows. rewrite <- Hrows.
  vm_compute. reflexivity.
Defined.

(** ** The payment component *)

(** C9: when the receipt of the transaction has no [PaymentReceived] event,
    the component shows the message of its own error, "Could not retrieve
    analysis ID from transaction", which is not the generic "Payment failed.
    Please try again.", and [onPaymentSuccess] is not called. *)
Theorem C9_missing_event_is_reported
    (p : pay_env) (h : jsstring) (price : N) (r : receipt) (σ : client) :
  web3 p = true → account p ≠ [] → selectedImage p = true →
  isAddress p = true →
  generateImageHash p = inr h → analysisPrice p = inr price → send p = inr r →
  (events ← tx_events r; assoc (lit "PaymentReceived") events) = None →
  (handlePayment p σ).1 = inr ()
  ∧ error (handlePayment p σ).2
    = Some (lit "Could not retrieve analysis ID from transaction")
  ∧ error (handlePayment p σ).2 ≠ Some (lit "Payment failed. Please try again.")
  ∧ delivered (handlePayment p σ).2 = delivered σ
  ∧ isProcessing (handlePayment p σ).2 = false.
Proof.
  intros Hweb3 Hacc Himg Haddr Hhash Hprice Hsend Hevent.
  assert (Hrun : handlePayment p σ
                 = (inr (), Client false
                      (Some (lit "Could not retrieve analysis ID from transaction"))
                      (Some (tx_transactionHash r)) (delivered σ))).
  { run_handler. rewrite Hweb3, Himg, Haddr, Hhash, Hprice, Hsend.
    rewrite bool_decide_eq_false_2 by done. simpl.
    destruct (tx_events r) as [events|]; simpl in *; [|done].
    by rewrite Hevent. }
  rewrite Hrun. simpl. repeat split. intros Heq. vm_compute in Heq. discriminate Heq.
Qed.

Lemma C9_missing_event_witness :
  error (handlePayment (pay_with (Receipt (lit "0x7e57") (Some []))) idle).2
  = Some (lit "Could not retrieve analysis ID from transaction")
  ∧ delivered (handlePayment (pay_with (Receipt (lit "0x7e57") None)) idle).2 = [].
Proof.
  split.
  - apply (C9_missing_event_is_reported
             (pay_with (Receipt (lit "0x7e57") (Some [])))
             (lit "0x9f86d0") 1000000000000000 (Receipt (lit "0x7e57") (Some [])) idle);
      first [reflexivity | compute_done].
  - apply (C9_missing_event_is_reported
             (pay_with (Receipt (lit "0x7e57") None))
             (lit "0x9f86d0") 1000000000000000 (Receipt (lit "0x7e57") None) idle);
      first [reflexivity | compute_done].
Defined.

(** * Further properties *)

(** ** The analyze route, case by case *)

(** X1: an upload that arrives without [analysisId], or with an empty one,
    is answered 400, and its temporary file stays in the upload directory:
    this path returns before any cleanup. *)
Theorem X1_upload_without_id_is_kept
    (e : env) (u : upload) (data : list N) (a : option jsstring) (w : world) :
  accepted (Some (u, data)) = true →
  a = None ∨ a = Some [] →
  (analyze e (AnalyzeReq (Some u) a) (store_upload (Some (u, data)) (backend w))).1
  = inr (Response 400
           (Json (JObject [(lit "error", JString (lit "Analysis ID is required"))])))
  ∧ files (backend (step w (PostAnalyze e (Some (u, data)) a))) !! path u = Some data
  ∧ analyses (backend (step w (PostAnalyze e (Some (u, data)) a))) = analyses (backend w).
Proof.
  intros Hacc Ha. unfold step. rewrite Hacc.
  destruct Ha as [-> | ->]; run_handler; by rewrite lookup_insert_eq.
Qed.

Lemma X1_upload_without_id_witness :
  files (backend (step (World (Server ∅ [pending42]) idle)
                    (PostAnalyze (Env (Some leaf_rust_text) true 200)
                       (Some (leaf_png, [137; 80; 78; 71])) None)))
  !! path leaf_png = Some [137; 80; 78; 71].
Proof.
  apply (X1_upload_without_id_is_kept (Env (Some leaf_rust_text) true 200)
           leaf_png [137; 80; 78; 71] None (World (Server ∅ [pending42]) idle)).
  - vm_compute; reflexivity.
  - left; reflexivity.
Defined.

(** What the completion write is seen to do to the table: each record
    keeps its place and its identity columns; a record of the identifier is
    completed at the time of the write, every other record is as it was. *)
Lemma completion_write (now : Z) (p1 p2 p3 p4 : option json) (a : jsstring)
    (t : list row) :
  Forall2 (λ r r', identity r' = identity r
                   ∧ if decide (analysis_id r = a)
                     then completed_at r' = Some now else r' = r)
    t (update_row now p1 p2 p3 p4 a <$> t).
Proof.
  induction t as [|r t IH]; [constructor|].
  rewrite fmap_cons. constructor; [|exact IH].
  unfold update_row. destruct (decide (analysis_id r = a)); by split.
Qed.

Lemma analyze_happy_path
    (e : env) (f : upload) (a text : jsstring) (σ : server) (data : list N) :
  files σ !! path f = Some data →
  a ≠ [] →
  model_reply e = Some text →
  query_ok e = true →
  analyze e (AnalyzeReq (Some f) (Some a)) σ
  = (inr (Response 200 (Json (analysisResult text))),
     Server (delete (path f) (files σ))
       (update_row (NOW e)
          (param (get_prop (analysisResult text) "diagnosis"))
          (param (get_prop (analysisResult text) "advice"))
          (param (get_prop (analysisResult text) "confidence"))
          (param (get_prop (analysisResult text) "severity")) a
        <$> analyses σ)).
Proof.
  intros Hfile Ha Hreply Hq. destruct a as [|c a]; [done|].
  run_handler. by rewrite Hfile, Hreply, Hq; simpl; rewrite Hfile.
Qed.

(** X2: when the upload is on disk, the identifier is not empty, the model
    replies and the database carries out the write, the route answers 200
    with the normalized result and deletes the upload; every record of that
    identifier is then completed at the time of the write, and every other
    record, and the identity columns of all, are as they were. *)
Theorem X2_analyze_success
    (e : env) (f : upload) (a text : jsstring) (σ : server) (data : list N) :
  files σ !! path f = Some data →
  a ≠ [] →
  model_reply e = Some text →
  query_ok e = true →
  (analyze e (AnalyzeReq (Some f) (Some a)) σ).1
  = inr (Response 200 (Json (analysisResult text)))
  ∧ files (analyze e (AnalyzeReq (Some f) (Some a)) σ).2 = delete (path f) (files σ)
  ∧ Forall2 (λ r r', identity r' = identity r
                     ∧ if decide (analysis_id r = a)
                       then completed_at r' = Some (NOW e) else r' = r)
      (analyses σ) (analyses (analyze e (AnalyzeReq (Some f) (Some a)) σ).2).
Proof.
  intros Hfile Ha Hreply Hq.
  rewrite (analyze_happy_path e f a text σ data) by done. simpl.
  split; [done|]. split; [done|]. apply completion_write.
Qed.

Lemma X2_analyze_success_witness :
  let σ := Server {[ path leaf_png := [137; 80; 78; 71] ]} [pending42] in
  (analyze (Env (Some leaf_rust_text) true 200)
     (AnalyzeReq (Some leaf_png) (Some (lit "42"))) σ).1
  = inr (Response 200 (Json leaf_rust))
  ∧ completed_at <$> analyses (analyze (Env (Some leaf_rust_text) true 200)
                                 (AnalyzeReq (Some leaf_png) (Some (lit "42"))) σ).2
    = [Some 200%Z].
Proof.
  intros σ.
  destruct (X2_analyze_success (Env (Some leaf_rust_text) true 200) leaf_png
              (lit "42") leaf_rust_text σ [137; 80; 78; 71])
    as (Hresp & _ & Hrows).
  - vm_compute; reflexivity.
  - compute_done.
  - reflexivity.
  - reflexivity.
  - split; [rewrite Hresp; vm_compute; reflexivity|].
    apply Forall2_cons_inv_l in Hrows as (r' & t' & [_ Hdone] & Hnil & ->).
    apply Forall2_nil_inv_l in Hnil as ->.
    rewrite decide_True in Hdone by (vm_compute; reflexivity).
    simpl. by rewrite Hdone.
Defined.

(** X3: a request that passes the two checks never leaves its upload
    behind: whatever the model and the database do, and whether or not the
    file can be read, the path of the upload is free afterwards and no
    other file is touched. *)
Theorem X3_upload_always_released
    (e : env) (f : upload) (a : jsstring) (σ : server) :
  a ≠ [] →
  files (analyze e (AnalyzeReq (Some f) (Some a)) σ).2 = delete (path f) (files σ).
Proof.
  intros Ha. destruct a as [|c a]; [done|]. run_handler.
  destruct (files σ !! path f) as [data|] eqn:Hfile; simpl.
  - destruct (model_reply e); simpl; [|by rewrite Hfile].
    destruct (query_ok e); simpl; by rewrite Hfile.
  - rewrite Hfile. simpl. symmetry. by apply delete_id.
Qed.

Lemma X3_upload_released_witness :
  let σ := Server {[ path leaf_png := [137; 80; 78; 71] ]} [pending42] in
  files (analyze (Env (Some yellowing) false 200)
           (AnalyzeReq (Some leaf_png) (Some (lit "42"))) σ).2
  = delete (path leaf_png) (files σ)
  ∧ files (analyze (Env None true 200)
             (AnalyzeReq (Some leaf_png) (Some (lit "42"))) (Server ∅ [])).2
    = delete (path leaf_png) ∅.
Proof.
  intros σ. split.
  - apply (X3_upload_always_released (Env (Some yellowing) false 200) leaf_png
             (lit "42") σ).
    compute_done.
  - apply (X3_upload_always_released (Env None true 200) leaf_png (lit "42")
             (Server ∅ [])).
    compute_done.
Defined.

(** X4: the route answers 200 only when the model replied and the write
    was carried out; the body is then the normalized reply, and every
    record of the request's identifier is completed at the time of that
    write. *)
Theorem X4_status_200_means_written
    (e : env) (req : analyze_req) (σ : server) (resp : response) :
  (analyze e req σ).1 = inr resp →
  status resp = 200%Z →
  ∃ text a,
    model_reply e = Some text ∧ query_ok e = true ∧ analysisId req = Some a
    ∧ a ≠ []
    ∧ payload resp = Json (analysisResult text)
    ∧ Forall (λ r, analysis_id r = a → completed_at r = Some (NOW e))
        (analyses (analyze e req σ).2).
Proof.
  destruct req as [[f|] [[|c a]|]]; run_handler;
    try (intros [= <-]; simpl; done).
  destruct (files σ !! path f) as [data|] eqn:Hfile; simpl;
    [|rewrite Hfile; simpl; intros [= <-]; done].
  destruct (model_reply e) as [text|]; simpl;
    [|rewrite Hfile; simpl; intros [= <-]; done].
  destruct (query_ok e); simpl; rewrite Hfile; simpl; intros [= <-]; [|done].
  intros _. exists text, (c :: a). do 5 (split; [done|]).
  apply Forall_fmap, Forall_forall. intros r _. simpl.
  unfold update_row. by destruct (decide (analysis_id r = c :: a)).
Qed.

Lemma X4_status_200_witness :
  let σ := Server {[ path leaf_png := [137; 80; 78; 71] ]} [pending42] in
  ∃ text a,
    model_reply (Env (Some leaf_rust_text) true 200) = Some text
    ∧ query_ok (Env (Some leaf_rust_text) true 200) = true
    ∧ Some (lit "42") = Some a ∧ a ≠ []
    ∧ Json leaf_rust = Json (analysisResult text)
    ∧ Forall (λ r, analysis_id r = a → completed_at r = Some 200%Z)
        (analyses (analyze (Env (Some leaf_rust_text) true 200)
                     (AnalyzeReq (Some leaf_png) (Some (lit "42"))) σ).2).
Proof.
  intros σ.
  apply (X4_status_200_means_written (Env (Some leaf_rust_text) true 200)
           (AnalyzeReq (Some leaf_png) (Some (lit "42"))) σ
           (Response 200 (Json leaf_rust))).
  - vm_compute. reflexivity.
  - reflexivity.
Defined.

(** ** What no sequence of operations changes *)

Lemma update_row_identity now p1 p2 p3 p4 a (r : row) :
  identity (update_row now p1 p2 p3 p4 a r) = identity r.
Proof. unfold update_row. by case_decide. Qed.

Lemma step_analyses (w : world) (o : op) :
  analyses (backend (step w o)) = analyses (backend w)
  ∨ ∃ now p1 p2 p3 p4 a,
      analyses (backend (step w o)) = update_row now p1 p2 p3 p4 a <$> analyses (backend w).
Proof.
  destruct o as [p|e image a|e addr|]; simpl; [by left| |by rewrite history_server; left|by left].
  destruct (accepted image); [|by left]. simpl.
  destruct (analyze_analyses e (AnalyzeReq (fst <$> image) a)
              (store_upload image (backend w)))
    as [->|(text & a' & _ & _ & ->)].
  - left. by destruct image as [[u data]|].
  - right. do 6 eexists. by destruct image as [[u data]|].
Qed.

(** X5: the serial number, the identifier, the owner, the image hash and
    the creation time of every record are the same after any sequence of
    payments and requests; records are neither added, removed nor
    reordered. *)
Theorem X5_identity_columns_are_immutable (ops : list op) (w : world) :
  identity <$> analyses (backend (run ops w)) = identity <$> analyses (backend w).
Proof.
  revert w. induction ops as [|o ops IH]; intros w; [done|].
  unfold run in *. simpl. rewrite IH.
  destruct (step_analyses w o) as [->|(now & p1 & p2 & p3 & p4 & a & ->)]; [done|].
  rewrite <- list_fmap_compose. apply list_fmap_ext.
  intros ? r _. apply update_row_identity.
Qed.

(** X6: a completed record is never pending again: after any sequence of
    payments and requests, the record at each place of the table is
    completed if it was before. *)
Theorem X6_completed_stays_completed (ops : list op) (w : world) :
  Forall2 (λ r r', is_Some (completed_at r) → is_Some (completed_at r'))
    (analyses (backend w)) (analyses (backend (run ops w))).
Proof.
  revert w. induction ops as [|o ops IH]; intros w.
  - apply Forall_Forall2_diag, Forall_forall. auto.
  - unfold run in *. simpl.
    assert (Hstep : Forall2 (λ r r', is_Some (completed_at r) → is_Some (completed_at r'))
                      (analyses (backend w)) (analyses (backend (step w o)))).
    { destruct (step_analyses w o) as [->|(now & p1 & p2 & p3 & p4 & a & ->)].
      - apply Forall_Forall2_diag, Forall_forall. auto.
      - apply Forall2_fmap_r, Forall_Forall2_diag, Forall_forall.
        intros r _ Hc. unfold update_row. case_decide; [by eexists|done]. }
    eapply Forall2_trans; [|exact Hstep|apply IH].
    intros r1 r2 r3 H12 H23 H1. auto.
Qed.

(** X7: a request to the analyze route leaves every record of another
    identifier exactly as it was. *)
Theorem X7_other_records_untouched
    (e : env) (f : option upload) (a : jsstring) (σ : server) :
  filter (λ r, analysis_id r ≠ a) (analyses (analyze e (AnalyzeReq f (Some a)) σ).2)
  = filter (λ r, analysis_id r ≠ a) (analyses σ).
Proof.
  destruct (analyze_analyses e (AnalyzeReq f (Some a)) σ)
    as [->|(text & a' & _ & [= <-] & ->)]; [done|].
  induction (analyses σ) as [|r t IH]; [done|].
  rewrite fmap_cons, !filter_cons, IH.
  destruct (decide (analysis_id r = a)) as [Hid|Hid].
  - rewrite update_row_analysis_id.
    destruct (decide (analysis_id r ≠ a)); [contradiction|done].
  - by rewrite update_row_other.
Qed.

Lemma update_row_twice now now' p1 p2 p3 p4 q1 q2 q3 q4 a (r : row) :
  update_row now' q1 q2 q3 q4 a (update_row now p1 p2 p3 p4 a r)
  = update_row now' q1 q2 q3 q4 a r.
Proof.
  unfold update_row. destruct (decide (analysis_id r = a)) as [Hid|Hid]; simpl.
  - by rewrite decide_True.
  - by rewrite decide_False.
Qed.

Lemma step_post_accepted (w : world) (e : env) (i : upload * list N)
    (a : option jsstring) :
  accepted (Some i) = true →
  step w (PostAnalyze e (Some i) a)
  = World (analyze e (AnalyzeReq (Some i.1) a) (store_upload (Some i) (backend w))).2
          (frontend w).
Proof. intros H. unfold step. by rewrite H. Qed.

(** X8: completion is not once only.  After two requests for the same
    identifier that both succeed, every record of the identifier carries
    the completion time of the second write, also a record the first had
    completed, and the table is what the second request alone would have
    left. *)
Theorem X8_second_completion_overwrites
    (e1 e2 : env) (i1 i2 : upload * list N) (a text1 text2 : jsstring) (w : world) :
  accepted (Some i1) = true → accepted (Some i2) = true →
  a ≠ [] →
  model_reply e1 = Some text1 → query_ok e1 = true →
  model_reply e2 = Some text2 → query_ok e2 = true →
  analyses (backend (run [PostAnalyze e1 (Some i1) (Some a);
                          PostAnalyze e2 (Some i2) (Some a)] w))
  = analyses (backend (run [PostAnalyze e2 (Some i2) (Some a)] w))
  ∧ Forall (λ r, analysis_id r = a → completed_at r = Some (NOW e1))
      (analyses (backend (run [PostAnalyze e1 (Some i1) (Some a)] w)))
  ∧ Forall (λ r, analysis_id r = a → completed_at r = Some (NOW e2))
      (analyses (backend (run [PostAnalyze e1 (Some i1) (Some a);
                               PostAnalyze e2 (Some i2) (Some a)] w))).
Proof.
  intros Hacc1 Hacc2 Ha Hr1 Hq1 Hr2 Hq2.
  destruct i1 as [u1 d1], i2 as [u2 d2].
  assert (Hone : ∀ e u d text σ, model_reply e = Some text → query_ok e = true →
            analyses (analyze e (AnalyzeReq (Some u) (Some a))
                        (store_upload (Some (u, d)) σ)).2
            = update_row (NOW e)
                (param (get_prop (analysisResult text) "diagnosis"))
                (param (get_prop (analysisResult text) "advice"))
                (param (get_prop (analysisResult text) "confidence"))
                (param (get_prop (analysisResult text) "severity")) a
              <$> analyses σ).
  { intros e u d text σ Hr Hq.
    rewrite (analyze_happy_path e u a text _ d); [done| |done..].
    apply lookup_insert_eq. }
  assert (Hdone : ∀ now p1 p2 p3 p4 (t : list row),
            Forall (λ r, analysis_id r = a → completed_at r = Some now)
              (update_row now p1 p2 p3 p4 a <$> t)).
  { intros now p1 p2 p3 p4 t. apply Forall_fmap, Forall_forall. intros r _. simpl.
    unfold update_row. by destruct (decide (analysis_id r = a)). }
  unfold run. cbn [foldl]. rewrite !step_post_accepted by done.
  cbn [backend fst].
  rewrite !(Hone e2 u2 d2 text2 _ Hr2 Hq2), !(Hone e1 u1 d1 text1 _ Hr1 Hq1).
  split; [|split; apply Hdone].
  rewrite <- list_fmap_compose. apply list_fmap_ext.
  intros ? r _. apply update_row_twice.
Qed.

Lemma X8_second_completion_witness :
  Forall (λ r, analysis_id r = lit "42" → completed_at r = Some 300%Z)
    (analyses (backend (run
       [PostAnalyze (Env (Some leaf_rust_text) true 200)
          (Some (leaf_png, [137; 80; 78; 71])) (Some (lit "42"));
        PostAnalyze (Env (Some yellowing) true 300)
          (Some (leaf_png, [137; 80; 78; 71])) (Some (lit "42"))]
       (World (Server ∅ [pending42]) idle)))).
Proof.
  apply (X8_second_completion_overwrites
           (Env (Some leaf_rust_text) true 200) (Env (Some yellowing) true 300)
           (leaf_png, [137; 80; 78; 71]) (leaf_png, [137; 80; 78; 71])
           (lit "42") leaf_rust_text yellowing (World (Server ∅ [pending42]) idle));
    first [reflexivity | compute_done].
Defined.

(** ** The history route when the database fails *)

(** X9: the history route only reads: whatever the database does, the
    server state is as before; and it answers 500 with the body [{error:
    'Failed to fetch analysis history'}] exactly when the query fails. *)
Theorem X9_history_is_read_only (e : env) (farmerAddress : jsstring) (σ : server) :
  (history e farmerAddress σ).2 = σ
  ∧ ((history e farmerAddress σ).1
     = inr (Response 500
              (Json (JObject
                       [(lit "error", JString (lit "Failed to fetch analysis history"))])))
     ↔ query_ok e = false).
Proof.
  split; [apply history_server|]. run_handler.
  destruct (query_ok e); simpl; split; intros H;
    first [reflexivity | discriminate H].
Qed.

(** ** The extraction of the result, in general *)

Lemma star_rbrace_none_inv (s : jsstring) :
  star_rbrace s = None → Chr.rbrace ∉ s.
Proof.
  induction s as [|c s IH]; [intros _; apply not_elem_of_nil|]. simpl.
  destruct (star_rbrace s) as [m'|]; [done|].
  destruct (N.eqb_spec c Chr.rbrace) as [->|Hc]; [done|]. intros _.
  apply not_elem_of_cons. split; [congruence|by apply IH].
Qed.

Lemma star_rbrace_some (s m : jsstring) :
  star_rbrace s = Some m →
  ∃ inner post, m = inner ++ [Chr.rbrace] ∧ s = m ++ post ∧ Chr.rbrace ∉ post.
Proof.
  revert m. induction s as [|c s IH]; intros m; [done|]. simpl.
  destruct (star_rbrace s) as [m'|] eqn:Hs.
  - intros [= <-]. destruct (IH m' eq_refl) as (inner & post & -> & -> & Hpost).
    exists (c :: inner), post. by repeat split.
  - destruct (N.eqb_spec c Chr.rbrace) as [->|_]; [|done]. intros [= <-].
    exists [], s. repeat split. by apply star_rbrace_none_inv.
Qed.

(** X10: what the regular expression extracts.  The match of a text is [m]
    exactly when the text is some prose without [{], then [m], then some
    prose without [}], and [m] starts with [{] and ends with [}]: the match
    is the span from the first [{] of the text to its last [}]. *)
Theorem X10_jsonMatch_is_first_to_last_brace (text m : jsstring) :
  jsonMatch text = Some m
  ↔ (∃ pre inner post,
       text = pre ++ (m ++ post) ∧ m = Chr.lbrace :: (inner ++ [Chr.rbrace])
       ∧ (Chr.lbrace ∉ pre) ∧ (Chr.rbrace ∉ post)).
Proof.
  split.
  - revert m. induction text as [|c text IH]; intros m; [done|]. simpl.
    destruct (N.eqb_spec c Chr.lbrace) as [->|Hc].
    + destruct (star_rbrace text) as [m'|] eqn:Hs; simpl.
      * intros [= <-]. destruct (star_rbrace_some _ _ Hs) as (inner & post & -> & -> & Hpost).
        exists [], inner, post. split; [done|]. split; [done|].
        split; [apply not_elem_of_nil|done].
      * intros Hm. apply star_rbrace_none_inv in Hs.
        rewrite <- (app_nil_l text), jsonMatch_none in Hm; [done| |done].
        apply not_elem_of_nil.
    + intros Hm. destruct (IH m Hm) as (pre & inner & post & -> & -> & Hpre & Hpost).
      exists (c :: pre), inner, post. split; [done|]. split; [done|].
      split; [|done]. apply not_elem_of_cons. split; [congruence|done].
  - intros (pre & inner & post & -> & -> & Hpre & Hpost).
    replace (pre ++ (Chr.lbrace :: inner ++ [Chr.rbrace]) ++ post)
      with (pre ++ Chr.lbrace :: inner ++ Chr.rbrace :: post)
      by (simpl; by rewrite <- app_assoc).
    by apply jsonMatch_span.
Qed.

(** X11: a reply without any [{] is never read as a result: the fallback
    is returned, made from the first 200 code units of the reply. *)
Theorem X11_prose_falls_back (text : jsstring) :
  Chr.lbrace ∉ text → analysisResult text = fallback text.
Proof.
  intros Hno. unfold analysisResult, structured.
  by rewrite jsonMatch_no_lbrace.
Qed.

Lemma X11_prose_falls_back_witness :
  analysisResult yellowing = fallback yellowing.
Proof.
  apply (X11_prose_falls_back yellowing). compute_done.
Defined.

(** X12: the normalized result is always an object, never an array, a
    string, a number or [null]: the reads of its four properties in the
    route cannot throw, and each yields [undefined] or a value. *)
Theorem X12_result_is_an_object (text : jsstring) :
  ∃ props, analysisResult text = JObject props
           ∧ ∀ name, get_prop (analysisResult text) name = obj_get (lit name) props.
Proof.
  unfold analysisResult. destruct (structured text) as [v|] eqn:Hv.
  - destruct (structured_object text v Hv) as [o ->]. by exists o.
  - by eexists.
Qed.

(** ** The payment component, case by case *)

Lemma strip_prefix_spec (p s r : jsstring) :
  strip_prefix p s = Some r ↔ s = p ++ r.
Proof.
  revert s. induction p as [|a p IH]; intros s; simpl.
  - destruct s; split; congruence.
  - destruct s as [|b s]; [split; congruence|].
    destruct (N.eqb_spec a b) as [->|Hab].
    + rewrite IH. split; congruence.
    + split; congruence.
Qed.

Lemma includes_unfold (s p : jsstring) :
  includes s p
  = match strip_prefix p s with
    | Some _ => true
    | None => match s with
              | [] => false
              | _ :: s' => includes s' p
              end
    end.
Proof. by destruct s. Qed.

Lemma includes_app (a p b : jsstring) : includes (a ++ p ++ b) p = true.
Proof.
  induction a as [|c a IH].
  - rewrite includes_unfold. simpl.
    by rewrite (proj2 (strip_prefix_spec p (p ++ b) b) eq_refl).
  - rewrite includes_unfold.
    destruct (strip_prefix p ((c :: a) ++ p ++ b)); [done|]. exact IH.
Qed.

Lemma includes_spec (s p : jsstring) :
  includes s p = true ↔ (∃ a b, s = a ++ (p ++ b)).
Proof.
  split.
  - induction s as [|c s IH]; rewrite includes_unfold.
    + destruct (strip_prefix p []) as [r|] eqn:Hp; [|done].
      apply strip_prefix_spec in Hp. intros _. by exists [], r.
    + destruct (strip_prefix p (c :: s)) as [r|] eqn:Hp.
      * apply strip_prefix_spec in Hp. intros _. by exists [], r.
      * intros (a & b & ->)%IH. by exists (c :: a), b.
  - intros (a & b & ->). apply includes_app.
Qed.

(** X13: an error whose message has [insufficient funds] anywhere in it is
    shown as "Insufficient ETH balance for transaction", whatever else the
    message says, also when it mentions a denial or an invalid address. *)
Theorem X13_insufficient_funds_anywhere (before after : jsstring) :
  errorMessage (before ++ lit "insufficient funds" ++ after)
  = lit "Insufficient ETH balance for transaction".
Proof.
  unfold errorMessage. by rewrite includes_app.
Qed.

(** X14: the message chosen in the [catch] is never empty: an error with
    an empty message is shown as "Payment failed. Please try again.", and a
    message with none of the three markers is shown as it is. *)
Theorem X14_errorMessage_never_empty (m : jsstring) :
  errorMessage m ≠ []
  ∧ (includes m (lit "insufficient funds") = false →
     includes m (lit "User denied") = false →
     includes m (lit "Invalid Ethereum address") = false →
     errorMessage m = if decide (m = []) then lit "Payment failed. Please try again." else m).
Proof.
  unfold errorMessage. split.
  - destruct (includes m (lit "insufficient funds")); [done|].
    destruct (includes m (lit "User denied")); [done|].
    destruct (includes m (lit "Invalid Ethereum address")); [done|].
    by destruct m.
  - intros -> -> ->. by destruct m.
Qed.

Lemma X14_errorMessage_witness :
  errorMessage (lit "Network Error") = lit "Network Error"
  ∧ errorMessage [] = lit "Payment failed. Please try again.".
Proof.
  split.
  - apply (X14_errorMessage_never_empty (lit "Network Error")); vm_compute; reflexivity.
  - apply (X14_errorMessage_never_empty []); vm_compute; reflexivity.
Defined.

(** The click once the transaction is mined. *)
Lemma handlePayment_mined
    (p : pay_env) (h : jsstring) (price : N) (r : receipt) (σ : client) :
  web3 p = true → account p ≠ [] → selectedImage p = true →
  isAddress p = true →
  generateImageHash p = inr h → analysisPrice p = inr price → send p = inr r →
  handlePayment p σ
  = match (events ← tx_events r; assoc (lit "PaymentReceived") events) ≫= returnValues with
    | Some values =>
        (inr (), Client false None (Some (tx_transactionHash r))
                   (delivered σ ++ [String_ (assoc (lit "analysisId") values)]))
    | None =>
        (inr (), Client false
                   (Some (lit "Could not retrieve analysis ID from transaction"))
                   (Some (tx_transactionHash r)) (delivered σ))
    end.
Proof.
  intros Hweb3 Hacc Himg Haddr Hhash Hprice Hsend.
  run_handler. rewrite Hweb3, Himg, Haddr, Hhash, Hprice, Hsend.
  rewrite bool_decide_eq_false_2 by done. simpl.
  destruct (tx_events r) as [events|]; simpl; [|done].
  destruct (assoc _ events) as [[[values|]]|]; simpl; done.
Qed.

(** X15: when the receipt carries [PaymentReceived] with return values, the
    click hands exactly one identifier to [onPaymentSuccess], the string
    form of [analysisId]; no error is shown, the transaction hash is shown,
    and the component is no longer processing. *)
Theorem X15_payment_delivers_identifier
    (p : pay_env) (h : jsstring) (price : N) (r : receipt)
    (events : list (jsstring * event)) (values : list (jsstring * retval))
    (σ : client) :
  web3 p = true → account p ≠ [] → selectedImage p = true →
  isAddress p = true →
  generateImageHash p = inr h → analysisPrice p = inr price → send p = inr r →
  tx_events r = Some events →
  assoc (lit "PaymentReceived") events = Some (Event (Some values)) →
  handlePayment p σ
  = (inr (), Client false None (Some (tx_transactionHash r))
               (delivered σ ++ [String_ (assoc (lit "analysisId") values)])).
Proof.
  intros Hweb3 Hacc Himg Haddr Hhash Hprice Hsend Hevents Hevent.
  rewrite (handlePayment_mined p h price r σ) by done.
  rewrite Hevents. simpl. by rewrite Hevent.
Qed.

Lemma X15_payment_delivers_witness :
  handlePayment paid42 idle
  = (inr (), Client false None (Some (lit "0x7e57")) [lit "42"]).
Proof.
  apply (X15_payment_delivers_identifier paid42 (lit "0x9f86d0") 1000000000000000
           (Receipt (lit "0x7e57")
              (Some [(lit "PaymentReceived", Event (Some [(lit "analysisId", RInt 42)]))]))
           [(lit "PaymentReceived", Event (Some [(lit "analysisId", RInt 42)]))]
           [(lit "analysisId", RInt 42)] idle);
    first [reflexivity | compute_done].
Defined.

(** X16: when the event is there but its return values have no
    [analysisId], the click still reports success: [onPaymentSuccess]
    receives the string "undefined" and no error is shown. *)
Theorem X16_missing_analysisId_delivers_undefined
    (p : pay_env) (h : jsstring) (price : N) (r : receipt)
    (events : list (jsstring * event)) (values : list (jsstring * retval))
    (σ : client) :
  web3 p = true → account p ≠ [] → selectedImage p = true →
  isAddress p = true →
  generateImageHash p = inr h → analysisPrice p = inr price → send p = inr r →
  tx_events r = Some events →
  assoc (lit "PaymentReceived") events = Some (Event (Some values)) →
  assoc (lit "analysisId") values = None →
  delivered (handlePayment p σ).2 = delivered σ ++ [lit "undefined"]
  ∧ error (handlePayment p σ).2 = None.
Proof.
  intros Hweb3 Hacc Himg Haddr Hhash Hprice Hsend Hevents Hevent Hid.
  rewrite (handlePayment_mined p h price r σ) by done.
  rewrite Hevents. simpl. rewrite Hevent. simpl. by rewrite Hid.
Qed.

Lemma X16_missing_analysisId_witness :
  delivered (handlePayment
               (pay_with (Receipt (lit "0x7e57")
                            (Some [(lit "PaymentReceived", Event (Some []))]))) idle).2
  = [lit "undefined"].
Proof.
  apply (X16_missing_analysisId_delivers_undefined
           (pay_with (Receipt (lit "0x7e57")
                        (Some [(lit "PaymentReceived", Event (Some []))])))
           (lit "0x9f86d0") 1000000000000000
           (Receipt (lit "0x7e57") (Some [(lit "PaymentReceived", Event (Some []))]))
           [(lit "PaymentReceived", Event (Some []))] [] idle);
    first [reflexivity | compute_done].
Defined.

Lemma handlePayment_invalid_address (p : pay_env) (σ : client) :
  web3 p = true → account p ≠ [] → selectedImage p = true →
  isAddress p = false →
  handlePayment p σ
  = (inr (),
     Client false (Some (lit "Please connect a valid Ethereum wallet")) None
       (delivered σ)).
Proof.
  intros Hweb3 Hacc Himg Haddr. run_handler. rewrite Hweb3, Himg, Haddr.
  by rewrite bool_decide_eq_false_2 by done.
Qed.

(** X17: a click with all props present and an account the wallet library
    does not accept as an address ends before any call to the ledger:
    whatever the hash, the price and the transaction would have been, the
    component shows "Please connect a valid Ethereum wallet", no
    transaction hash, and hands out no identifier. *)
Theorem X17_validation_stops_before_the_ledger
    (p : pay_env) (σ : client) :
  web3 p = true → account p ≠ [] → selectedImage p = true →
  isProcessing σ = false →
  isAddress p = false →
  disabled p σ = false
  ∧ click p σ
    = Client false (Some (lit "Please connect a valid Ethereum wallet")) None
        (delivered σ).
Proof.
  intros Hweb3 Hacc Himg Hidle Haddr.
  assert (Hen : disabled p σ = false).
  { unfold disabled. rewrite Hweb3, Himg, Hidle.
    by rewrite bool_decide_eq_false_2 by done. }
  split; [done|]. unfold click. rewrite Hen.
  by rewrite handlePayment_invalid_address.
Qed.

Lemma X17_validation_witness :
  click (PayEnv true (lit "not-an-address") true false
           (inr (lit "0x9f86d0")) (inr 1000000000000000)
           (inr (Receipt (lit "0x7e57") None))) idle
  = Client false (Some (lit "Please connect a valid Ethereum wallet")) None [].
Proof.
  apply (X17_validation_stops_before_the_ledger
           (PayEnv true (lit "not-an-address") true false
              (inr (lit "0x9f86d0")) (inr 1000000000000000)
              (inr (Receipt (lit "0x7e57") None))) idle);
    first [reflexivity | compute_done].
Defined.

(** X18: when the transaction is refused or fails with a message, the
    component shows the message chosen for it, no transaction hash, and
    hands out no identifier. *)
Theorem X18_failed_transaction_is_reported
    (p : pay_env) (h : jsstring) (price : N) (m : jsstring) (σ : client) :
  web3 p = true → account p ≠ [] → selectedImage p = true →
  isAddress p = true →
  generateImageHash p = inr h → analysisPrice p = inr price →
  send p = inl (JsError (Some m)) →
  handlePayment p σ
  = (inr (), Client false (Some (errorMessage m)) None (delivered σ)).
Proof.
  intros Hweb3 Hacc Himg Haddr Hhash Hprice Hsend.
  run_handler. rewrite Hweb3, Himg, Haddr, Hhash, Hprice, Hsend.
  by rewrite bool_decide_eq_false_2 by done.
Qed.

Lemma X18_failed_transaction_witness :
  handlePayment
    (PayEnv true (lit "0xabc") true true (inr (lit "0x9f86d0")) (inr 1000000000000000)
       (inl (Error "MetaMask Tx Signature: User denied transaction signature.")))
    idle
  = (inr (), Client false (Some (lit "Transaction was cancelled by user")) None []).
Proof.
  apply (X18_failed_transaction_is_reported
           (PayEnv true (lit "0xabc") true true (inr (lit "0x9f86d0"))
              (inr 1000000000000000)
              (inl (Error "MetaMask Tx Signature: User denied transaction signature.")))
           (lit "0x9f86d0") 1000000000000000
           (lit "MetaMask Tx Signature: User denied transaction signature.") idle);
    first [reflexivity | compute_done].
Defined.

(** X19: when a call of the click rejects with a value that has no
    [message], the [catch] itself throws: the click ends rejected, no error
    is shown, no identifier is handed out, and the component is still left
    not processing. *)
Theorem X19_error_without_message_shows_nothing
    (p : pay_env) (h : jsstring) (price : N) (σ : client) :
  web3 p = true → account p ≠ [] → selectedImage p = true →
  isAddress p = true →
  generateImageHash p = inl (JsError None)
  ∨ (generateImageHash p = inr h ∧ analysisPrice p = inl (JsError None))
  ∨ (generateImageHash p = inr h ∧ analysisPrice p = inr price
     ∧ send p = inl (JsError None)) →
  (∃ err, (handlePayment p σ).1 = inl err)
  ∧ (handlePayment p σ).2 = Client false None None (delivered σ).
Proof.
  intros Hweb3 Hacc Himg Haddr Hfail.
  run_handler. rewrite Hweb3, Himg, Haddr.
  rewrite bool_decide_eq_false_2 by done. simpl.
  destruct Hfail as [->|[[-> ->]|(-> & -> & ->)]]; simpl; eauto.
Qed.

Lemma X19_error_without_message_witness :
  (handlePayment
     (PayEnv true (lit "0xabc") true true (inr (lit "0x9f86d0")) (inr 1000000000000000)
        (inl (JsError None))) idle).2
  = Client false None None [].
Proof.
  apply (X19_error_without_message_shows_nothing
           (PayEnv true (lit "0xabc") true true (inr (lit "0x9f86d0"))
              (inr 1000000000000000) (inl (JsError None)))
           (lit "0x9f86d0") 1000000000000000 idle);
    first [reflexivity | compute_done | (right; right; repeat split; reflexivity)].
Defined.

(** X20: a click on the disabled button (the component is processing, or
    a prop is missing) changes nothing.  Any other click, whatever the
    wallet and the ledger do, leaves the component not processing and hands
    at most one identifier to [onPaymentSuccess], and an identifier only
    with the transaction hash on display. *)
Theorem X20_click_hands_out_at_most_one (p : pay_env) (σ : client) :
  (disabled p σ = true ∧ click p σ = σ)
  ∨ (disabled p σ = false
     ∧ isProcessing (click p σ) = false
     ∧ (delivered (click p σ) = delivered σ
        ∨ ∃ analysisId,
            delivered (click p σ) = delivered σ ++ [analysisId]
            ∧ is_Some (transactionHash (click p σ)))).
Proof.
  unfold click. destruct (disabled p σ) eqn:Hdis; [by left|]. right.
  split; [done|].
  unfold disabled in Hdis.
  destruct (isProcessing σ); [done|]. destruct (selectedImage p) eqn:Himg; [|done].
  destruct (bool_decide (account p = [])) eqn:Hacc; [done|].
  destruct (web3 p) eqn:Hweb3; [|done]. clear Hdis.
  apply bool_decide_eq_false in Hacc.
  destruct (isAddress p) eqn:Haddr;
    [|rewrite handlePayment_invalid_address by done; simpl; auto].
  destruct (generateImageHash p) as [[[m|]]|h] eqn:Hhash.
  1,2: run_handler; rewrite Hweb3, Himg, Haddr, Hhash;
       rewrite bool_decide_eq_false_2 by done; simpl; auto.
  destruct (analysisPrice p) as [[[m|]]|price] eqn:Hprice.
  1,2: run_handler; rewrite Hweb3, Himg, Haddr, Hhash, Hprice;
       rewrite bool_decide_eq_false_2 by done; simpl; auto.
  destruct (send p) as [[[m|]]|r] eqn:Hsend.
  1,2: run_handler; rewrite Hweb3, Himg, Haddr, Hhash, Hprice, Hsend;
       rewrite bool_decide_eq_false_2 by done; simpl; auto.
  rewrite (handlePayment_mined p h price r σ) by done.
  destruct (_ ≫= returnValues) as [values|]; simpl; [|auto].
  split; [done|]. right. eexists. split; [done|]. by eexists.
Qed.

(** ** The image hash *)

Lemma padStart_toString16 (b : Byte.byte) :
  padStart 2 Chr.zero (toString16 b)
  = [hex_char (Byte.to_N b / 16); hex_char (Byte.to_N b `mod` 16)].
Proof. by destruct b. Qed.

Lemma unhex_byte (b : Byte.byte) (r : jsstring) :
  unhex (padStart 2 Chr.zero (toString16 b) ++ r) = (b ::.) <$> unhex r.
Proof. by destruct b. Qed.

Lemma lower_hex_byte (b : Byte.byte) :
  forallb is_lower_hex (padStart 2 Chr.zero (toString16 b)) = true.
Proof. by destruct b. Qed.

(** X21: the image hash is [0x] followed by exactly two lower-case
    hexadecimal digits for each byte of the digest (a byte below 16 gets a
    leading zero), so a 32-byte digest always gives 66 code units. *)
Theorem X21_hashString_shape (hashArray : list Byte.byte) :
  take 2 (hashString hashArray) = lit "0x"
  ∧ length (hashString hashArray) = (2 + 2 * length hashArray)%nat
  ∧ forallb is_lower_hex (drop 2 (hashString hashArray)) = true.
Proof.
  assert (Hlen : length (concat ((λ b, padStart 2 Chr.zero (toString16 b)) <$> hashArray))
                 = (2 * length hashArray)%nat).
  { induction hashArray as [|b h IH]; [done|].
    rewrite fmap_cons. cbn [concat]. rewrite length_app, IH, padStart_toString16.
    cbn [length]. lia. }
  assert (Hhex : forallb is_lower_hex
                   (concat ((λ b, padStart 2 Chr.zero (toString16 b)) <$> hashArray))
                 = true).
  { clear Hlen. induction hashArray as [|b h IH]; [done|].
    rewrite fmap_cons. cbn [concat]. by rewrite forallb_app, IH, lower_hex_byte. }
  unfold hashString. split; [done|]. split; [|exact Hhex].
  rewrite length_app, Hlen. done.
Qed.

(** X22: the digest can be read back from the image hash, so two digests
    with the same hash string are the same digest. *)
Theorem X22_hashString_roundtrip (hashArray : list Byte.byte) :
  hashBytes (hashString hashArray) = Some hashArray
  ∧ ∀ other, hashString other = hashString hashArray → other = hashArray.
Proof.
  assert (Hback : ∀ h, hashBytes (hashString h) = Some h).
  { intros h. unfold hashBytes, hashString.
    change (strip_prefix (lit "0x") (lit "0x" ++ ?l)) with (Some l). simpl.
    induction h as [|b h IH]; [done|].
    rewrite fmap_cons. simpl concat. by rewrite unhex_byte, IH. }
  split; [apply Hback|].
  intros other Heq. apply (f_equal hashBytes) in Heq.
  rewrite !Hback in Heq. congruence.
Qed.

(** ** The shortened address *)

Lemma slice_head (s : jsstring) : slice s 0 (Some 6%Z) = take 6 s.
Proof.
  unfold slice, slice_index, clamp. simpl.
  replace (Z.to_nat (0 `max` (6 `min` Z.of_nat (length s))) - Z.to_nat (0 `max` (0 `min` Z.of_nat (length s))))%nat
    with (6 `min` length s)%nat by lia.
  replace (Z.to_nat (0 `max` (0 `min` Z.of_nat (length s)))) with 0%nat by lia.
  rewrite drop_0. destruct (decide (6 ≤ length s)%nat).
  - by rewrite Nat.min_l.
  - rewrite Nat.min_r by lia. by rewrite !take_ge by lia.
Qed.

Lemma slice_tail (s : jsstring) : slice s (-4) None = drop (length s - 4) s.
Proof.
  unfold slice, slice_index, clamp. simpl.
  destruct (Z.ltb_spec (Z.of_nat (length s)) 0); [lia|].
  replace (Z.to_nat (0 `max` (Z.of_nat (length s) + -4))) with (length s - 4)%nat by lia.
  apply take_ge. rewrite length_drop. lia.
Qed.

Lemma substring_head (s : jsstring) : substring s 0 (Some 6%Z) = take 6 s.
Proof.
  unfold substring, clamp. simpl.
  replace (Z.to_nat (0 `max` (0 `min` Z.of_nat (length s)))) with 0%nat by lia.
  rewrite Nat.min_0_l, Nat.max_0_l, Nat.sub_0_r, drop_0.
  destruct (decide (6 ≤ length s)%nat).
  - f_equal. lia.
  - rewrite !take_ge by lia. done.
Qed.

Lemma substring_tail (s : jsstring) :
  substring s (Z.of_nat (length s) - 4) None = drop (length s - 4) s.
Proof.
  unfold substring, clamp. simpl.
  replace (Z.to_nat (0 `max` ((Z.of_nat (length s) - 4) `min` Z.of_nat (length s))))
    with (length s - 4)%nat by lia.
  replace (Z.to_nat (0 `max` (Z.of_nat (length s) `min` Z.of_nat (length s))))
    with (length s) by lia.
  rewrite Nat.min_l, Nat.max_r by lia.
  apply take_ge. rewrite length_drop. lia.
Qed.

(** X23: of an address of ten code units or more, the wallet component
    shows the first six, three dots and the last four, thirteen code units
    in all; what lies between is not shown. *)
Theorem X23_shortenAddress_hides_the_middle (first middle last : jsstring) :
  length first = 6%nat → length last = 4%nat →
  shortenAddress (first ++ middle ++ last) = first ++ lit "..." ++ last
  ∧ length (shortenAddress (first ++ middle ++ last)) = 13%nat.
Proof.
  intros Hf Hl.
  assert (Heq : shortenAddress (first ++ middle ++ last) = first ++ lit "..." ++ last).
  { unfold shortenAddress. rewrite slice_head, slice_tail.
    rewrite take_app_length' by done.
    replace (length (first ++ middle ++ last) - 4)%nat
      with (length (first ++ middle)) by (rewrite !length_app; lia).
    rewrite (app_assoc first middle last). by rewrite drop_app_length. }
  split; [done|]. rewrite Heq, !length_app, Hf, Hl. done.
Qed.

Lemma X23_shortenAddress_witness :
  shortenAddress (lit "0x71C7656EC7ab88b098defB751B7401B5f6d8976F")
  = lit "0x71C7...976F".
Proof.
  apply (X23_shortenAddress_hides_the_middle
           (lit "0x71C7") (lit "656EC7ab88b098defB751B7401B5f6d8") (lit "976F"));
    reflexivity.
Defined.

(** X24: the account line of the payment component and [shortenAddress] of
    the wallet component never disagree: for every connected account the
    one, written with [substring], and the other, written with [slice],
    show the same text, also when the account is shorter than four or six
    code units. *)
Theorem X24_both_labels_agree (account : jsstring) :
  account ≠ [] → account_label account = shortenAddress account.
Proof.
  intros Hne. destruct account as [|c account]; [done|].
  unfold account_label, shortenAddress.
  by rewrite substring_head, substring_tail, slice_head, slice_tail.
Qed.

Lemma X24_both_labels_witness :
  account_label (lit "0xab") = shortenAddress (lit "0xab")
  ∧ shortenAddress (lit "0xab") = lit "0xab...0xab".
Proof.
  split; [|reflexivity].
  apply (X24_both_labels_agree (lit "0xab")). compute_done.
Defined.

(** ** The wallet component *)

Ltac run_wallet :=
  cbv [connectWallet try_catch try_finally throw mbind mret ST_bind ST_ret
       setIsConnecting setWalletError setWeb3 onWalletConnected]; simpl.

Lemma connectWallet_cases (w : wallet_env) (σ : wallet) :
  connectWallet w σ
  = match detectEthereumProvider w with
    | inl None =>
        (inl (Some (Error "Cannot read properties of undefined")),
         Wallet false None (web3Instance σ) (connected σ))
    | inl (Some err) =>
        (inr (),
         Wallet false (Some (or_else (message err) (lit "Failed to connect wallet")))
           (web3Instance σ) (connected σ))
    | inr false =>
        (inr (),
         Wallet false (Some (lit "Please install MetaMask to use this application"))
           (web3Instance σ) (connected σ))
    | inr true =>
        match requestAccounts w with
        | inl None =>
            (inl (Some (Error "Cannot read properties of undefined")),
             Wallet false None true (connected σ))
        | inl (Some err) =>
            (inr (),
             Wallet false (Some (or_else (message err) (lit "Failed to connect wallet")))
               true (connected σ))
        | inr [] =>
            (inr (),
             Wallet false (Some (lit "No accounts found. Please unlock MetaMask"))
               true (connected σ))
        | inr (account :: _) =>
            (inr (), Wallet false None true (connected σ ++ [account]))
        end
    end.
Proof.
  run_wallet. destruct (detectEthereumProvider w) as [[err|]|[|]]; simpl; try done.
  by destruct (requestAccounts w) as [[err|]|[|account accounts]].
Qed.

(** X25: when the provider lookup or the account request rejects with
    [undefined] or [null], the [catch] itself throws on [err.message]: the
    attempt ends rejected, no error is shown, no account is handed on, and
    the [finally] still leaves the component not connecting. *)
Theorem X25_nullish_rejection_shows_nothing (w : wallet_env) (σ : wallet) :
  detectEthereumProvider w = inl None
  ∨ (detectEthereumProvider w = inr true ∧ requestAccounts w = inl None) →
  (∃ err, (connectWallet w σ).1 = inl err)
  ∧ isConnecting (connectWallet w σ).2 = false
  ∧ wallet_error (connectWallet w σ).2 = None
  ∧ connected (connectWallet w σ).2 = connected σ.
Proof.
  intros [Hp|[Hp Ha]]; rewrite connectWallet_cases, Hp; [|rewrite Ha];
    simpl; eauto.
Qed.

Lemma X25_nullish_rejection_witness :
  (connectWallet (WalletEnv (inr true) (inl None)) disconnected).2
  = Wallet false None true []
  ∧ wallet_error (connectWallet (WalletEnv (inl None) (inr [lit "0xabc"]))
                    disconnected).2 = None.
Proof.
  split; [reflexivity|].
  apply (X25_nullish_rejection_shows_nothing
           (WalletEnv (inl None) (inr [lit "0xabc"])) disconnected).
  left; reflexivity.
Defined.

(** X26: when the wallet answers with accounts, the one handed on is the
    first of the list, whatever follows it. *)
Theorem X26_first_account_is_connected
    (w : wallet_env) (account : jsstring) (others : list jsstring) (σ : wallet) :
  detectEthereumProvider w = inr true →
  requestAccounts w = inr (account :: others) →
  connectWallet w σ = (inr (), Wallet false None true (connected σ ++ [account])).
Proof. intros Hp Ha. by rewrite connectWallet_cases, Hp, Ha. Qed.

Lemma X26_first_account_witness :
  connectWallet (WalletEnv (inr true) (inr [lit "0xabc"; lit "0xdef"])) disconnected
  = (inr (), Wallet false None true [lit "0xabc"]).
Proof.
  apply (X26_first_account_is_connected
           (WalletEnv (inr true) (inr [lit "0xabc"; lit "0xdef"]))
           (lit "0xabc") [lit "0xdef"] disconnected); reflexivity.
Defined.

(** X27: without a provider the component asks for MetaMask and keeps no
    web3 instance; with a provider and no account it asks to unlock
    MetaMask, and the web3 instance made before the accounts were asked for
    stays in its state.  In both cases nothing is handed on. *)
Theorem X27_connect_failures (w : wallet_env) (σ : wallet) :
  detectEthereumProvider w = inr false
  ∨ (detectEthereumProvider w = inr true ∧ requestAccounts w = inr []) →
  connectWallet w σ
  = (inr (),
     match detectEthereumProvider w with
     | inr false =>
         Wallet false (Some (lit "Please install MetaMask to use this application"))
           (web3Instance σ) (connected σ)
     | _ =>
         Wallet false (Some (lit "No accounts found. Please unlock MetaMask"))
           true (connected σ)
     end).
Proof.
  intros [Hp|[Hp Ha]]; rewrite connectWallet_cases, Hp; [done|]. by rewrite Ha.
Qed.

Lemma X27_connect_failures_witness :
  connectWallet (WalletEnv (inr false) (inr [lit "0xabc"])) disconnected
  = (inr (), Wallet false (Some (lit "Please install MetaMask to use this application"))
               false [])
  ∧ connectWallet (WalletEnv (inr true) (inr [])) disconnected
    = (inr (), Wallet false (Some (lit "No accounts found. Please unlock MetaMask"))
                 true []).
Proof.
  split.
  - apply (X27_connect_failures (WalletEnv (inr false) (inr [lit "0xabc"])) disconnected).
    left; reflexivity.
  - apply (X27_connect_failures (WalletEnv (inr true) (inr [])) disconnected).
    right; split; reflexivity.
Defined.

(** ** The result component against the server *)

Lemma post_analyze_answered
    (e : env) (image : upload * list N) (a : jsstring) (σ : server) :
  accepted (Some image) = true → a ≠ [] →
  post_analyze e image a σ
  = match model_reply e with
    | Some text =>
        if query_ok e then
          (Answered (Response 200 (Json (analysisResult text))),
           Server (delete (path image.1) (<[path image.1 := image.2]> (files σ)))
             (update_row (NOW e)
                (param (get_prop (analysisResult text) "diagnosis"))
                (param (get_prop (analysisResult text) "advice"))
                (param (get_prop (analysisResult text) "confidence"))
                (param (get_prop (analysisResult text) "severity")) a
              <$> analyses σ))
        else
          (Answered (Response 500 (error_body "Analysis failed. Please try again later.")),
           Server (delete (path image.1) (<[path image.1 := image.2]> (files σ)))
             (analyses σ))
    | None =>
        (Answered (Response 500 (error_body "Analysis failed. Please try again later.")),
         Server (delete (path image.1) (<[path image.1 := image.2]> (files σ)))
           (analyses σ))
    end.
Proof.
  intros Hacc Ha. destruct image as [u d]. unfold post_analyze. rewrite Hacc.
  destruct a as [|c a]; [done|]. run_handler. rewrite lookup_insert_eq.
  destruct (model_reply e) as [text|]; simpl; [|by rewrite lookup_insert_eq].
  destruct (query_ok e); simpl; by rewrite lookup_insert_eq.
Qed.



(** X29: end to end, when inference or persistence fails, the component
    shows the server's message "Analysis failed. Please try again later."
    and keeps on display the result of the request before, if there was
    one. *)
Theorem X29_viewer_keeps_the_old_result
    (e : env) (image : upload * list N) (a : jsstring) (σ : server) (v : viewer) :
  accepted (Some image) = true → a ≠ [] →
  model_reply e = None ∨ query_ok e = false →
  analyzeImage true (Some a) (post_analyze e image a σ).1 v
  = Viewer false (result v)
      (Some (JString (lit "Analysis failed. Please try again later."))).
Proof.
  intros Hacc Ha Hfail. rewrite post_analyze_answered by done.
  destruct a as [|c a]; [done|].
  destruct (model_reply e) as [text|]; [|done].
  destruct Hfail as [Hr|Hq]; [done|]. by rewrite Hq.
Qed.

Lemma X29_viewer_old_result_witness :
  analyzeImage true (Some (lit "42"))
    (post_analyze (Env None true 200)
       (leaf_png, [137; 80; 78; 71]) (lit "42") (Server ∅ [pending42])).1
    (Viewer false (Some (Json leaf_rust)) None)
  = Viewer false (Some (Json leaf_rust))
      (Some (JString (lit "Analysis failed. Please try again later."))).
Proof.
  apply (X29_viewer_keeps_the_old_result (Env None true 200)
           (leaf_png, [137; 80; 78; 71]) (lit "42") (Server ∅ [pending42])
           (Viewer false (Some (Json leaf_rust)) None)).
  - vm_compute; reflexivity.
  - compute_done.
  - left; reflexivity.
Defined.

(** X30: the component never gets the route's two 400 answers: it sends
    nothing without an image and a non-empty identifier, so whatever the
    image, the identifier, the model and the database are, the error it
    shows afterwards is the one it had (nothing sent), none (a result), the
    server's message of a failed analysis, or its own default message
    (multer refused the image). *)
Theorem X30_viewer_never_sees_validation_errors
    (selectedImage : bool) (analysisId : option jsstring)
    (e : env) (image : upload * list N) (σ : server) (v : viewer) :
  let v' := analyzeImage selectedImage analysisId
              (post_analyze e image (default [] analysisId) σ).1 v in
  v' = v
  ∨ isAnalyzing v' = false
    ∧ (viewer_error v' = None
       ∨ viewer_error v' = Some (JString (lit "Analysis failed. Please try again later."))
       ∨ viewer_error v' = Some (JString (lit "Analysis failed. Please try again."))).
Proof.
  intros v'. subst v'.
  destruct selectedImage; [|by left].
  destruct analysisId as [[|c a]|]; [by left| |by left]. right.
  cbn [default]. destruct (accepted (Some image)) eqn:Hacc.
  - rewrite post_analyze_answered by done.
    destruct (model_reply e) as [text|]; [|simpl; auto].
    destruct (query_ok e); simpl; auto.
  - unfold post_analyze. rewrite Hacc. simpl. auto.
Qed.
